(** * dukascopy-data: the tick decoder (convert.py) and the sync engine
      (downloader.py), embedded and checked against their specification.

    The development follows the two source files.  The Python library
    calls they lean on ([datetime], [struct.unpack], float division,
    [requests], the file system) are modelled here at the level the
    program observes them. *)

From Stdlib Require Import ZArith List Bool Lia Ascii String.
From Stdlib Require Import Strings.Byte.
From Stdlib Require Import Floats.SpecFloat.
From stdpp Require Import base option list strings pretty gmap.

Local Open Scope Z_scope.

(** ** Python's proleptic Gregorian calendar (module [datetime]) *)

Module Calendar.

(** [datetime.date]: year, month, day. *)
Record date := mkdate { year : Z; month : Z; day : Z }.

(** [datetime.datetime] without time zone. *)
Record datetime := mkdatetime {
  dt_date : date;
  hour : Z;
  minute : Z;
  second : Z;
  microsecond : Z
}.

(** [datetime.timedelta], normalised: [0 <= seconds < 86400] and
    [0 <= microseconds < 1000000]. *)
Record timedelta := mktimedelta { days : Z; seconds : Z; microseconds : Z }.

Definition MINYEAR : Z := 1.
Definition MAXYEAR : Z := 9999.
Definition _MAXORDINAL : Z := 3652059.

Definition _DI400Y : Z := 146097.
Definition _DI100Y : Z := 36524.
Definition _DI4Y : Z := 1461.

Definition _is_leap (y : Z) : bool :=
  (y mod 4 =? 0) && (negb (y mod 100 =? 0) || (y mod 400 =? 0)).

(** The tables [_DAYS_IN_MONTH] and [_DAYS_BEFORE_MONTH], indexed by the
    month number (index 0 is the placeholder [-1] of the source). *)
Definition _DAYS_IN_MONTH (m : Z) : Z :=
  match m with
  | 1 => 31 | 2 => 28 | 3 => 31 | 4 => 30 | 5 => 31 | 6 => 30
  | 7 => 31 | 8 => 31 | 9 => 30 | 10 => 31 | 11 => 30 | 12 => 31
  | _ => -1
  end.

Definition _DAYS_BEFORE_MONTH (m : Z) : Z :=
  match m with
  | 1 => 0 | 2 => 31 | 3 => 59 | 4 => 90 | 5 => 120 | 6 => 151
  | 7 => 181 | 8 => 212 | 9 => 243 | 10 => 273 | 11 => 304 | 12 => 334
  | _ => -1
  end.

Definition _days_before_year (y : Z) : Z :=
  let y1 := y - 1 in y1 * 365 + y1 / 4 - y1 / 100 + y1 / 400.

Definition _days_in_month (y m : Z) : Z :=
  if (m =? 2) && _is_leap y then 29 else _DAYS_IN_MONTH m.

Definition _days_before_month (y m : Z) : Z :=
  _DAYS_BEFORE_MONTH m + (if (2 <? m) && _is_leap y then 1 else 0).

Definition _ymd2ord (y m d : Z) : Z :=
  _days_before_year y + _days_before_month y m + d.

Definition _ord2ymd (n0 : Z) : date :=
  let n := n0 - 1 in
  let n400 := n / _DI400Y in
  let n := n mod _DI400Y in
  let y := n400 * 400 + 1 in
  let n100 := n / _DI100Y in
  let n := n mod _DI100Y in
  let n4 := n / _DI4Y in
  let n := n mod _DI4Y in
  let n1 := n / 365 in
  let n := n mod 365 in
  let y := y + n100 * 100 + n4 * 4 + n1 in
  if (n1 =? 4) || (n100 =? 4) then mkdate (y - 1) 12 31
  else
    let leapyear := (n1 =? 3) && (negb (n4 =? 24) || (n100 =? 3)) in
    let m := Z.shiftr (n + 50) 5 in
    let preceding :=
      _DAYS_BEFORE_MONTH m + (if (2 <? m) && leapyear then 1 else 0) in
    if n <? preceding then
      let m' := m - 1 in
      let preceding' :=
        preceding
        - (_DAYS_IN_MONTH m' + (if (m' =? 2) && leapyear then 1 else 0)) in
      mkdate y m' (n - preceding' + 1)
    else mkdate y m (n - preceding + 1).

(** The range check of the [date] constructor ([_check_date_fields]). *)
Definition valid_date (d : date) : bool :=
  (MINYEAR <=? year d) && (year d <=? MAXYEAR)
  && (1 <=? month d) && (month d <=? 12)
  && (1 <=? day d) && (day d <=? _days_in_month (year d) (month d)).

Definition toordinal (d : date) : Z := _ymd2ord (year d) (month d) (day d).

Definition fromordinal (n : Z) : date := _ord2ymd n.

(** [date.__le__]: comparison of the (year, month, day) triples. *)
Definition date_leb (a b : date) : bool :=
  (year a <? year b)
  || ((year a =? year b)
      && ((month a <? month b)
          || ((month a =? month b) && (day a <=? day b)))).

(** [date.__add__]: [OverflowError] (here [None]) outside
    [1 .. _MAXORDINAL]. *)
Definition date_add_days (d : date) (k : Z) : option date :=
  let o := toordinal d + k in
  if (0 <? o) && (o <=? _MAXORDINAL) then Some (fromordinal o) else None.

(** [timedelta(milliseconds=ms)] for an integer [ms]; the constructor
    normalises with floor division. *)
Definition timedelta_of_ms (ms : Z) : timedelta :=
  let us := ms * 1000 in
  mktimedelta (us / 86400000000)
              ((us mod 86400000000) / 1000000)
              (us mod 1000000).

(** A duration counted in microseconds, and back. *)
Definition timedelta_us (t : timedelta) : Z :=
  (days t * 86400 + seconds t) * 1000000 + microseconds t.

Definition timedelta_of_us (us : Z) : timedelta :=
  mktimedelta (us / 86400000000)
              ((us mod 86400000000) / 1000000)
              (us mod 1000000).

(** [datetime.replace(hour=h, minute=0, second=0, microsecond=0)]:
    [ValueError] (here [None]) when the hour is not in [0 .. 23]. *)
Definition replace_hour (d : date) (h : Z) : option datetime :=
  if (0 <=? h) && (h <=? 23) then Some (mkdatetime d h 0 0 0) else None.

(** [datetime.__add__]: the instant is turned into a [timedelta] since
    ordinal 0, the operand is added, and the sum is split again;
    [OverflowError] (here [None]) when the day leaves
    [1 .. _MAXORDINAL]. *)
Definition datetime_us (t : datetime) : Z :=
  timedelta_us
    (mktimedelta (toordinal (dt_date t))
                 (hour t * 3600 + minute t * 60 + second t)
                 (microsecond t)).

Definition datetime_add (t : datetime) (delta : timedelta) : option datetime :=
  let sum := timedelta_of_us (datetime_us t + timedelta_us delta) in
  let h := seconds sum / 3600 in
  let rem := seconds sum mod 3600 in
  let mi := rem / 60 in
  let s := rem mod 60 in
  if (0 <? days sum) && (days sum <=? _MAXORDINAL)
  then Some (mkdatetime (fromordinal (days sum)) h mi s (microseconds sum))
  else None.

End Calendar.

(** ** [struct.unpack] for the format [">iiiii"] *)

Module Struct.

Definition byte_val (b : byte) : Z := Z.of_N (Byte.to_N b).

(** Four bytes, most significant first, as an unsigned 32-bit number. *)
Definition be_u32 (b0 b1 b2 b3 : byte) : Z :=
  Z.lor (Z.shiftl (byte_val b0) 24)
        (Z.lor (Z.shiftl (byte_val b1) 16)
               (Z.lor (Z.shiftl (byte_val b2) 8) (byte_val b3))).

(** Format code [i]: the same four bytes read in two's complement. *)
Definition be_i32 (b0 b1 b2 b3 : byte) : Z :=
  let u := be_u32 b0 b1 b2 b3 in
  if Z.testbit u 31 then u - 2 ^ 32 else u.

(** [struct.unpack(">iiiii", chunk)]: five signed big-endian integers;
    [struct.error] (here [None]) unless the buffer has exactly 20 bytes. *)
Definition unpack_iiiii (chunk : list byte) : option (Z * Z * Z * Z * Z) :=
  match chunk with
  | [a0; a1; a2; a3; b0; b1; b2; b3; c0; c1; c2; c3;
     d0; d1; d2; d3; e0; e1; e2; e3] =>
      Some (be_i32 a0 a1 a2 a3, be_i32 b0 b1 b2 b3, be_i32 c0 c1 c2 c3,
            be_i32 d0 d1 d2 d3, be_i32 e0 e1 e2 e3)
  | _ => None
  end.

(** The inverse direction, used to build test records:
    [struct.pack(">i", v)] for [v] in the signed 32-bit range. *)
Definition byte_of_Z (v : Z) : byte :=
  match Byte.of_N (Z.to_N (v mod 256)) with
  | Some b => b
  | None => x00
  end.

Definition pack_i32 (v : Z) : list byte :=
  let u := v mod 2 ^ 32 in
  [byte_of_Z (Z.shiftr u 24); byte_of_Z (Z.shiftr u 16);
   byte_of_Z (Z.shiftr u 8); byte_of_Z u].

End Struct.

(** ** Python floats: IEEE 754 binary64 *)

Module PyFloat.

Definition prec : Z := 53.
Definition emax : Z := 1024.

(** [float(i)] for an integer, rounded to nearest-even. *)
Definition of_int (i : Z) : spec_float := binary_normalize prec emax i 0 false.

(** [x / y] on floats. *)
Definition div (x y : spec_float) : spec_float := SFdiv prec emax x y.

(** The literal [100000.0]. *)
Definition f100000 : spec_float := of_int 100000.

(** [i / 100000.0] for an integer [i]: the integer is converted first. *)
Definition int_truediv_100000 (i : Z) : spec_float := div (of_int i) f100000.

End PyFloat.

(** ** The world the two scripts run in *)

(** Exceptions that leave a function of the repository. *)
Inductive exn :=
  | ValueError
  | FileNotFoundError
  | OverflowError
  | StructError.

(** How a call ends: it returns (both scripts return [None] or a
    message) or an exception propagates to the caller. *)
Inductive completion (A : Type) :=
  | Returned (a : A)
  | Raised (e : exn).
Arguments Returned {A} a.
Arguments Raised {A} e.

(** ** convert.py *)

Module Convert.
Import Calendar.

(** One decoded tick, as handed to [writer.writerow]. *)
Record Row := mkRow {
  tick_time : datetime;
  ask_price : spec_float;
  bid_price : spec_float;
  ask_vol : Z;
  bid_vol : Z
}.

(** A line given to the CSV writer: the header or a tick.  Rendering to
    text is the writer's business. *)
Inductive csv_line :=
  | Header (cols : list string)
  | Tick (r : Row).

(** The files on disk by path, and what has been printed. *)
Record world := mkworld {
  files : gmap string (list byte);
  stdout : list string
}.

Inductive lzma_result :=
  | Decompressed (data : list byte)
  | LZMAError (msg : string).

Definition record_size : nat := 20.

(** [range(0, n, record_size)]. *)
Definition chunk_offsets (n : nat) : list nat :=
  map (fun k => (k * record_size)%nat) (seq 0 ((n + (record_size - 1)) / record_size)%nat).

(** The body of the loop for one complete chunk: unpack, build the
    timestamp, scale the prices. *)
Definition row_of_chunk (base_datetime : datetime) (chunk : list byte)
  : completion Row :=
  match Struct.unpack_iiiii chunk with
  | None => Raised StructError
  | Some (ms_since_hour, ask_raw, bid_raw, ask_v, bid_v) =>
      match datetime_add base_datetime (timedelta_of_ms ms_since_hour) with
      | None => Raised OverflowError
      | Some t =>
          Returned (mkRow t
                          (PyFloat.int_truediv_100000 ask_raw)
                          (PyFloat.int_truediv_100000 bid_raw)
                          ask_v bid_v)
      end
  end.

(** The [for i in range(...)] loop; [out] is what the writer has been
    given so far.  An exception leaves the lines written before it. *)
Fixpoint decode_loop (base_datetime : datetime) (data : list byte)
    (offsets : list nat) (out : list csv_line)
  : completion unit * list csv_line :=
  match offsets with
  | [] => (Returned tt, out)
  | i :: rest =>
      let chunk := take record_size (drop i data) in
      if (length chunk <? record_size)%nat then (Returned tt, out)
      else
        match row_of_chunk base_datetime chunk with
        | Raised e => (Raised e, out)
        | Returned r => decode_loop base_datetime data rest (out ++ [Tick r])
        end
  end.

Definition csv_header : list string :=
  ["timestamp"; "ask"; "bid"; "ask_volume"; "bid_volume"]%string.

(** What is written to the CSV file for a decompressed buffer. *)
Definition decode (base_datetime : datetime) (data : list byte)
  : completion unit * list csv_line :=
  decode_loop base_datetime data (chunk_offsets (length data))
              [Header csv_header].

(** The ticks of a CSV table, in the order written. *)
Definition rows_of (lines : list csv_line) : list Row :=
  omap (fun l => match l with Tick r => Some r | Header _ => None end) lines.

Section Bi5ToCsv.

(** [lzma.decompress], left abstract. *)
Variable lzma_decompress : list byte -> lzma_result.

(** The text [csv.writer] leaves in the file for the lines it was
    given, left abstract as well. *)
Variable csv_text : list csv_line -> list byte.

Definition print (s : string) (w : world) : world :=
  mkworld (files w) (stdout w ++ [s]).

(** [bi5_to_csv(bi5_path, csv_path, date_str, hour)].  [base_date] is
    the date [datetime.strptime(date_str, "%Y-%m-%d")] has parsed. *)
Definition bi5_to_csv (bi5_path csv_path : string) (base_date : date)
    (hour : Z) (w : world) : completion unit * world :=
  match replace_hour base_date hour with
  | None => (Raised ValueError, w)
  | Some base_datetime =>
      match files w !! bi5_path with
      | None => (Raised FileNotFoundError, w)
      | Some compressed_data =>
          match lzma_decompress compressed_data with
          | LZMAError e =>
              (Returned tt,
               print ("Error decompressing " +:+ bi5_path +:+ ": " +:+ e) w)
          | Decompressed decompressed_data =>
              let (c, lines) := decode base_datetime decompressed_data in
              let w' := mkworld (<[csv_path := csv_text lines]> (files w))
                                (stdout w) in
              match c with
              | Raised e => (Raised e, w')
              | Returned _ =>
                  (Returned tt,
                   print ("Converted: " +:+ bi5_path +:+ " -> " +:+ csv_path) w')
              end
          end
      end
  end.

End Bi5ToCsv.

End Convert.

(** ** downloader.py *)

Module Downloader.
Import Calendar.

(** *** f-string formatting and paths *)

(** [str(n)] for an integer. *)
Definition str (n : Z) : string := pretty n.

Fixpoint zeros (k : nat) : string :=
  match k with
  | O => ""
  | S k' => String "0" (zeros k')
  end.

(** The format [{n:0Wd}]: the digits padded with zeros to [width]
    characters, the sign first and counted in the width. *)
Definition fmt_0d (width : nat) (n : Z) : string :=
  let digits := pretty (Z.abs_N n) in
  if n <? 0
  then String "-" (zeros (width - 1 - String.length digits) +:+ digits)
  else zeros (width - String.length digits) +:+ digits.

Definition starts_with_slash (s : string) : bool :=
  match s with
  | String c _ => Ascii.eqb c "/"
  | EmptyString => false
  end.

Fixpoint ends_with_slash (s : string) : bool :=
  match s with
  | EmptyString => false
  | String c EmptyString => Ascii.eqb c "/"
  | String _ rest => ends_with_slash rest
  end.

(** [os.path.join(a, b)] (posixpath). *)
Definition path_join (a b : string) : string :=
  if starts_with_slash b then b
  else if (String.eqb a "" || ends_with_slash a)%bool then a +:+ b
  else a +:+ "/" +:+ b.

Definition url_of (instrument : string) (year month day hour : Z) : string :=
  "https://datafeed.dukascopy.com/datafeed/" +:+ instrument +:+ "/"
  +:+ str year +:+ "/" +:+ fmt_0d 2 month +:+ "/" +:+ fmt_0d 2 day +:+ "/"
  +:+ fmt_0d 2 hour +:+ "h_ticks.bi5".

Definition filename_of (instrument : string) (year month day hour : Z)
  : string :=
  let date_str := fmt_0d 4 year +:+ fmt_0d 2 month +:+ fmt_0d 2 day in
  instrument +:+ "_" +:+ date_str +:+ "_" +:+ fmt_0d 2 hour +:+ "h_ticks.bi5".

Definition folder_of (output_folder instrument : string) : string :=
  path_join output_folder instrument.

Definition filepath_of (output_folder instrument : string)
    (year month day hour : Z) : string :=
  path_join (folder_of output_folder instrument)
            (filename_of instrument year month day hour).

(** *** The remote side *)

(** [requests.head(url, ...)]: an exception, or a response with its
    status code and its [Content-Length] header when there is one. *)
Inductive head_result :=
  | HeadRaises
  | HeadResponse (status_code : Z) (content_length : option string).

(** [requests.get(url, ...)]: an exception (with its text), or a response
    with its status code and body. *)
Inductive get_result :=
  | GetRaises (e : string)
  | GetResponse (status_code : Z) (content : list byte).

Record network := mknetwork {
  head : string -> head_result;
  get : string -> get_result
}.

(** *** What one call does to the outside, in order *)

Inductive event :=
  | EvMakedirs (folder : string)
  | EvHead (url : string)
  | EvGet (url : string)
  | EvOpenWb (path : string)
  | EvWrite (path : string) (data : list byte)
  | EvClose (path : string).

(** The files by path.  Directories are not tracked: [os.makedirs]
    leaves the files as they are. *)
Definition apply_event (fs : gmap string (list byte)) (ev : event)
  : gmap string (list byte) :=
  match ev with
  | EvOpenWb p => <[p := []]> fs
  | EvWrite p data => <[p := default [] (fs !! p) ++ data]> fs
  | EvMakedirs _ | EvHead _ | EvGet _ | EvClose _ => fs
  end.

Definition fs_after (fs : gmap string (list byte)) (trace : list event)
  : gmap string (list byte) :=
  foldl apply_event fs trace.

(** *** [download_one_hour] *)

(** The five messages the function can return. *)
Inductive outcome :=
  | SkippedSameSize (filepath : string)
  | SkippedSameSizeAfterGet (filepath : string)
  | Downloaded (filepath : string)
  | NoData (url : string) (status_code : Z)
  | ErrorDownloading (url : string) (e : string).

Definition message (o : outcome) : string :=
  match o with
  | SkippedSameSize p => "Skipped (same size): " +:+ p
  | SkippedSameSizeAfterGet p => "Skipped (same size after GET): " +:+ p
  | Downloaded p => "Downloaded: " +:+ p
  | NoData u st => "No data for " +:+ u +:+ " (status " +:+ str st +:+ ")"
  | ErrorDownloading u e => "Error downloading " +:+ u +:+ ": " +:+ e
  end.

Section DownloadOneHour.

(** Python's [int(s)] on a header value; [None] is [ValueError]. *)
Variable int_of_str : string -> option Z.

Variable net : network.

(** The first [if] block: [Some] is the early return; in every other
    case control falls through to the GET. *)
Definition probe (fs : gmap string (list byte)) (url filepath : string)
  : option outcome * list event :=
  match fs !! filepath with
  | None => (None, [])
  | Some local =>
      let local_size := Z.of_nat (length local) in
      if 0 <? local_size then
        match head net url with
        | HeadRaises => (None, [EvHead url])
        | HeadResponse status_code content_length =>
            if status_code =? 200 then
              match content_length with
              | None => (None, [EvHead url])
              | Some s =>
                  match int_of_str s with
                  | None => (None, [EvHead url])
                  | Some server_size =>
                      if server_size =? local_size
                      then (Some (SkippedSameSize filepath), [EvHead url])
                      else (None, [EvHead url])
                  end
              end
            else (None, [EvHead url])
        end
      else (None, [])
  end.

(** The second [try] block. *)
Definition transfer (fs : gmap string (list byte)) (url filepath : string)
  : outcome * list event :=
  match get net url with
  | GetRaises e => (ErrorDownloading url e, [EvGet url])
  | GetResponse status_code new_data =>
      if (status_code =? 200) && negb (bool_decide (new_data = [])) then
        let new_size := length new_data in
        match fs !! filepath with
        | Some local =>
            if (new_size =? length local)%nat
            then (SkippedSameSizeAfterGet filepath, [EvGet url])
            else (Downloaded filepath,
                  [EvGet url; EvOpenWb filepath; EvWrite filepath new_data;
                   EvClose filepath])
        | None =>
            (Downloaded filepath,
             [EvGet url; EvOpenWb filepath; EvWrite filepath new_data;
              EvClose filepath])
        end
      else (NoData url status_code, [EvGet url])
  end.

Definition download_one_hour (fs : gmap string (list byte))
    (instrument : string) (year month day hour : Z) (output_folder : string)
  : outcome * list event :=
  let url := url_of instrument year month day hour in
  let folder := folder_of output_folder instrument in
  let filepath := filepath_of output_folder instrument year month day hour in
  match probe fs url filepath with
  | (Some r, evs) => (r, EvMakedirs folder :: evs)
  | (None, evs) =>
      let (r, evs') := transfer fs url filepath in
      (r, EvMakedirs folder :: evs ++ evs')
  end.

End DownloadOneHour.

(** *** [download_dukascopy_ticks]: the task list *)

(** One element of [tasks]: the arguments of a [download_one_hour] call. *)
Record task := mktask {
  t_instrument : string;
  t_year : Z;
  t_month : Z;
  t_day : Z;
  t_hour : Z;
  t_output_folder : string
}.

(** [range(24)]. *)
Definition hours : list Z := map Z.of_nat (seq 0 24).

Definition tasks_of_day (instrument output_folder : string) (d : date)
  : list task :=
  map (fun h => mktask instrument (year d) (month d) (day d) h output_folder)
      hours.

(** The [while current_date <= end_date] loop.  [fuel] bounds the number
    of iterations; [None] is running out of it. *)
Fixpoint tasks_loop (fuel : nat) (instrument output_folder : string)
    (current_date end_date : date) (tasks : list task)
  : option (completion (list task)) :=
  match fuel with
  | O => None
  | S fuel' =>
      if date_leb current_date end_date then
        let tasks' := tasks ++ tasks_of_day instrument output_folder current_date in
        match date_add_days current_date 1 with
        | None => Some (Raised OverflowError)
        | Some next => tasks_loop fuel' instrument output_folder next end_date tasks'
        end
      else Some (Returned tasks)
  end.

(** Lines 72 to 84 of [download_dukascopy_ticks]: the list handed to the
    thread pool, or the exception raised while building it. *)
Definition build_tasks (instrument : string) (start_date end_date : date)
    (output_folder : string) : option (completion (list task)) :=
  tasks_loop (S (Z.to_nat (toordinal end_date - toordinal start_date + 1)))
             instrument output_folder start_date end_date [].

End Downloader.

(** *** [download_dukascopy_ticks]: running the tasks *)

Module Pool.
Import Downloader.

Section Pool.

Variable int_of_str : string -> option Z.
Variable net : network.

(** One submitted call: [download_one_hour] on the fields of [t]. *)
Definition run_task (fs : gmap string (list byte)) (t : task)
  : outcome * list event :=
  download_one_hour int_of_str net fs (t_instrument t) (t_year t) (t_month t)
                    (t_day t) (t_hour t) (t_output_folder t).

(** The calls made one after the other in the order [order], each on the
    disk the previous ones left; the messages are printed as the calls
    end.  The pool runs the calls on several threads; this is the run in
    which they do not overlap. *)
Fixpoint run_in_order (fs : gmap string (list byte)) (order : list task)
  : list string * gmap string (list byte) :=
  match order with
  | [] => ([], fs)
  | t :: rest =>
      let (o, trace) := run_task fs t in
      let (printed, fs') := run_in_order (fs_after fs trace) rest in
      (message o :: printed, fs')
  end.

End Pool.

End Pool.

(** * Notions used to state the properties

    Nothing below is code of the repository: these are the vocabulary of
    the statements and the inputs of the scenarios. *)

Module CalendarSpec.
Import Calendar.

Fixpoint all_from (f : Z -> bool) (lo : Z) (n : nat) : bool :=
  match n with
  | O => true
  | S k => f lo && all_from f (lo + 1) k
  end.

Definition shift_years (k : Z) (d : date) : date :=
  mkdate (year d + k) (month d) (day d).

Definition cycle_ok (r : Z) : bool :=
  let d := _ord2ymd (r + 1) in
  (_ymd2ord (year d) (month d) (day d) =? r + 1)
  && (1 <=? year d) && (year d <=? 400)
  && ((145730 <? r) || (year d <=? 399))
  && (1 <=? month d) && (month d <=? 12)
  && (1 <=? day d) && (day d <=? _days_in_month (year d) (month d)).

Definition date_ltb (a b : date) : bool :=
  (year a <? year b)
  || ((year a =? year b)
      && ((month a <? month b)
          || ((month a =? month b) && (day a <? day b)))).

End CalendarSpec.

Module ConvertSpec.
Import Calendar Convert.

(** The complete 20-byte records of a buffer, in file order. *)
Definition chunk_at (data : list byte) (k : nat) : list byte :=
  take record_size (drop (k * record_size) data).

Definition complete_chunks (data : list byte) : list (list byte) :=
  map (chunk_at data) (seq 0 (length data / record_size)).

(** Writing one row per chunk until a chunk raises. *)
Fixpoint write_rows (base_datetime : datetime) (chunks : list (list byte))
    (out : list csv_line) : completion unit * list csv_line :=
  match chunks with
  | [] => (Returned tt, out)
  | chunk :: rest =>
      match row_of_chunk base_datetime chunk with
      | Raised e => (Raised e, out)
      | Returned r => write_rows base_datetime rest (out ++ [Tick r])
      end
  end.

(** A well-formed time of day. *)
Definition valid_time (t : datetime) : Prop :=
  0 <= hour t < 24 /\ 0 <= minute t < 60 /\ 0 <= second t < 60
  /\ 0 <= microsecond t < 1000000.

(** The bytes [4k .. 4k+3] of a record read as a signed, respectively
    unsigned, big-endian 32-bit integer. *)
Definition nth_byte (chunk : list byte) (i : nat) : byte := nth i chunk x00.

Definition signed_field (chunk : list byte) (k : nat) : Z :=
  Struct.be_i32 (nth_byte chunk (4 * k)) (nth_byte chunk (4 * k + 1))
                (nth_byte chunk (4 * k + 2)) (nth_byte chunk (4 * k + 3)).

Definition unsigned_field (chunk : list byte) (k : nat) : Z :=
  Struct.be_u32 (nth_byte chunk (4 * k)) (nth_byte chunk (4 * k + 1))
                (nth_byte chunk (4 * k + 2)) (nth_byte chunk (4 * k + 3)).

(** The instant [ms] milliseconds after [base] falls on a day the
    calendar has (years 1 to 9999). *)
Definition representable (base : datetime) (ms : Z) : Prop :=
  0 < (datetime_us base + 1000 * ms) / 86400000000 <= _MAXORDINAL.

(** [struct.pack(">iiiii", ...)]: one record. *)
Definition pack_record (offset_ms ask_raw bid_raw ask_volume bid_volume : Z)
  : list byte :=
  Struct.pack_i32 offset_ms ++ Struct.pack_i32 ask_raw
  ++ Struct.pack_i32 bid_raw ++ Struct.pack_i32 ask_volume
  ++ Struct.pack_i32 bid_volume.

(** [f] is a normal double within half a unit in the last place of the
    fraction [num / den]: the value the decimal literal of that fraction
    denotes. *)
Definition nearest_binary64 (num den : Z) (f : spec_float) : bool :=
  match f with
  | S754_finite s m e =>
      let sm := if s then - Z.pos m else Z.pos m in
      (e <=? 0) && (2 ^ 52 <=? Z.pos m) && (Z.pos m <? 2 ^ 53)
      && (2 * Z.abs (sm * den - num * 2 ^ (- e)) <=? den)
  | _ => false
  end.

(** The hour anchor of the scenarios: 2024-11-03 05:00:00. *)
Definition anchor_2024_11_03_05 : datetime :=
  mkdatetime (mkdate 2024 11 3) 5 0 0 0.

(** The last hour of the calendar: 9999-12-31 23:00:00. *)
Definition anchor_9999_12_31_23 : datetime :=
  mkdatetime (mkdate 9999 12 31) 23 0 0 0.

(** A decompressor that rejects every input, and a CSV writer that
    writes nothing, for the scenarios. *)
Definition lzma_rejects (_ : list byte) : lzma_result :=
  LZMAError "Corrupt input data".

Definition csv_blank (_ : list csv_line) : list byte := [].

(** A disk with one corrupt artifact and an older CSV file. *)
Definition corrupt_world : world :=
  mkworld (<["in.bi5" := [x00; x01]]> (<["out.csv" := [x41]]> ∅)) [].

End ConvertSpec.

Module DownloaderSpec.
Import Calendar Downloader.

(** [c; c+1; ...], [n] numbers. *)
Fixpoint ord_range (c : Z) (n : nat) : list Z :=
  match n with
  | O => []
  | S k => c :: ord_range (c + 1) k
  end.

(** The calendar days from [start_date] to [end_date], both included. *)
Definition days_between (start_date end_date : date) : list date :=
  map fromordinal
      (ord_range (toordinal start_date)
                 (Z.to_nat (toordinal end_date - toordinal start_date + 1))).

(** The position of a task in calendar order: hours since ordinal 0. *)
Definition task_key (t : task) : Z :=
  toordinal (mkdate (t_year t) (t_month t) (t_day t)) * 24 + t_hour t.

(** [date.max]. *)
Definition date_max : date := mkdate 9999 12 31.

(** The GET did not deliver: an exception, a status other than 200, or
    an empty body. *)
Definition transfer_failed (g : get_result) : Prop :=
  match g with
  | GetRaises _ => True
  | GetResponse status_code content => status_code <> 200 \/ content = []
  end.

(** The two messages that report a failed transfer. *)
Definition failure (url : string) (o : outcome) : Prop :=
  (exists status_code, o = NoData url status_code)
  \/ (exists e, o = ErrorDownloading url e).

(** Events that touch a file. *)
Definition is_file_write (ev : event) : bool :=
  match ev with
  | EvOpenWb _ | EvWrite _ _ => true
  | EvMakedirs _ | EvHead _ | EvGet _ | EvClose _ => false
  end.

(** A header parser and a server for the scenarios: the server has a
    three-byte artifact. *)
Definition int_of_digits (s : string) : option Z :=
  if String.eqb s "3" then Some 3 else None.

Definition server_3_bytes : network :=
  mknetwork (fun _ => HeadResponse 200 (Some "3"%string))
            (fun _ => GetResponse 200 [x0a; x0b; x0c]).

Definition server_down : network :=
  mknetwork (fun _ => HeadRaises) (fun _ => GetRaises "timed out").

Definition eurusd_path : string := "data/EURUSD/EURUSD_20241103_05h_ticks.bi5".

(** A disk holding an older, two-byte copy of the artifact. *)
Definition stale_disk : gmap string (list byte) :=
  {[ eurusd_path := [x01; x02] ]}.

End DownloaderSpec.

Module ConvertNotions.
Import Calendar Convert ConvertSpec.

(** A decompressor that accepts every input and returns it as it is, for
    the scenarios. *)
Definition lzma_stored (data : list byte) : lzma_result := Decompressed data.

(** A disk with one artifact of two records and an older CSV file. *)
Definition two_tick_world : world :=
  mkworld (<["in.bi5" := pack_record 1500 109234 109210 3 5
                         ++ pack_record 2500 109235 109211 1 2]>
             (<["out.csv" := [x41]]> ∅)) [].


End ConvertNotions.

Module DownloaderNotions.
Import Calendar CalendarSpec Downloader DownloaderSpec Pool.

(** The HEAD answers 200 with a Content-Length that reads as the size of
    the local file. *)
Definition head_confirms (int_of_str : string -> option Z) (net : network)
    (url : string) (local : list byte) : Prop :=
  exists s, head net url = HeadResponse 200 (Some s)
            /\ int_of_str s = Some (Z.of_nat (length local)).

(** The result is one of the two skip messages. *)
Definition skipped (filepath : string) (o : outcome) : Prop :=
  o = SkippedSameSize filepath \/ o = SkippedSameSizeAfterGet filepath.

(** The file events of a write to [path]. *)
Definition write_events (path : string) (data : list byte) : list event :=
  [EvOpenWb path; EvWrite path data; EvClose path].

(** A server whose HEAD fails and whose GET delivers three bytes. *)
Definition server_get_only : network :=
  mknetwork (fun _ => HeadRaises) (fun _ => GetResponse 200 [x0a; x0b; x0c]).

(** A disk holding a three-byte artifact that differs from the server's. *)
Definition same_size_disk : gmap string (list byte) :=
  {[ eurusd_path := [x01; x02; x03] ]}.

(** The local path of a task's artifact. *)
Definition task_path (t : task) : string :=
  filepath_of (t_output_folder t) (t_instrument t) (t_year t) (t_month t)
              (t_day t) (t_hour t).

(** The number a string of decimal digits denotes. *)
Fixpoint digits_value_from (acc : Z) (s : string) : Z :=
  match s with
  | EmptyString => acc
  | String c rest =>
      digits_value_from (acc * 10 + (Z.of_nat (nat_of_ascii c) - 48)) rest
  end.

Definition digits_value (s : string) : Z := digits_value_from 0 s.

(** [{n:0Wd}] has [width] characters and reads back as [n]. *)
Definition fmt_ok (width : nat) (n : Z) : bool :=
  (String.length (fmt_0d width n) =? width)%nat
  && (digits_value (fmt_0d width n) =? n).


End DownloaderNotions.

(** * Properties *)

(** ** The calendar: ordinals and dates *)

Module CalendarFacts.
Import Calendar CalendarSpec.

Lemma all_from_spec f lo n :
  all_from f lo n = true -> forall z, lo <= z < lo + Z.of_nat n -> f z = true.
Proof.
  revert lo. induction n as [|n IH]; intros lo H z Hz; [lia|].
  simpl in H. apply andb_true_iff in H as [H1 H2].
  destruct (Z.eq_dec z lo) as [->|Hne]; [exact H1|].
  apply (IH (lo + 1)); [exact H2|lia].
Qed.

Lemma cycle_check : all_from cycle_ok 0 (Z.to_nat 146097) = true.
Proof. vm_compute. reflexivity. Qed.

Lemma is_leap_shift y q : _is_leap (y + 400 * q) = _is_leap y.
Proof.
  unfold _is_leap.
  replace ((y + 400 * q) mod 4) with (y mod 4)
    by (replace (y + 400 * q) with (y + (100 * q) * 4) by lia; now rewrite Z_mod_plus_full).
  replace ((y + 400 * q) mod 100) with (y mod 100)
    by (replace (y + 400 * q) with (y + (4 * q) * 100) by lia; now rewrite Z_mod_plus_full).
  replace ((y + 400 * q) mod 400) with (y mod 400)
    by (replace (y + 400 * q) with (y + q * 400) by lia; now rewrite Z_mod_plus_full).
  reflexivity.
Qed.

Lemma days_before_year_shift y q :
  _days_before_year (y + 400 * q) = _days_before_year y + 146097 * q.
Proof.
  unfold _days_before_year. cbv zeta.
  replace ((y + 400 * q - 1) / 4) with ((y - 1) / 4 + 100 * q)
    by (replace (y + 400 * q - 1) with (y - 1 + (100 * q) * 4) by lia; now rewrite Z_div_plus_full).
  replace ((y + 400 * q - 1) / 100) with ((y - 1) / 100 + 4 * q)
    by (replace (y + 400 * q - 1) with (y - 1 + (4 * q) * 100) by lia; now rewrite Z_div_plus_full).
  replace ((y + 400 * q - 1) / 400) with ((y - 1) / 400 + q)
    by (replace (y + 400 * q - 1) with (y - 1 + q * 400) by lia; now rewrite Z_div_plus_full).
  lia.
Qed.

Lemma ymd2ord_shift y m d q :
  _ymd2ord (y + 400 * q) m d = _ymd2ord y m d + 146097 * q.
Proof.
  unfold _ymd2ord, _days_before_month.
  rewrite is_leap_shift, days_before_year_shift. lia.
Qed.

Lemma days_in_month_shift y m q :
  _days_in_month (y + 400 * q) m = _days_in_month y m.
Proof. unfold _days_in_month. now rewrite is_leap_shift. Qed.

Lemma ord2ymd_shift n :
  _ord2ymd n =
  shift_years (400 * ((n - 1) / 146097)) (_ord2ymd ((n - 1) mod 146097 + 1)).
Proof.
  unfold _ord2ymd, shift_years, _DI400Y. cbv zeta.
  replace ((n - 1) mod 146097 + 1 - 1) with ((n - 1) mod 146097) by lia.
  set (q := (n - 1) / 146097). set (r := (n - 1) mod 146097).
  assert (Hr : 0 <= r < 146097) by (apply Z.mod_pos_bound; lia).
  rewrite (Z.div_small r 146097), (Z.mod_small r 146097) by lia.
  repeat match goal with |- context [if ?c then _ else _] => destruct c end;
    simpl; f_equal; lia.
Qed.

Lemma cycle_ok_all r : 0 <= r < 146097 -> cycle_ok r = true.
Proof.
  intros Hr. apply (all_from_spec cycle_ok 0 (Z.to_nat 146097) cycle_check).
  rewrite Z2Nat.id; lia.
Qed.

Lemma cycle_ok_elim r :
  cycle_ok r = true ->
  let d := _ord2ymd (r + 1) in
  _ymd2ord (year d) (month d) (day d) = r + 1
  /\ 1 <= year d <= 400 /\ (r <= 145730 -> year d <= 399)
  /\ 1 <= month d <= 12
  /\ 1 <= day d <= _days_in_month (year d) (month d).
Proof.
  unfold cycle_ok. cbv zeta. intros Hc.
  repeat (apply andb_true_iff in Hc as [Hc ?]).
  lia.
Qed.

Lemma ordinal_roundtrip n :
  1 <= n <= _MAXORDINAL ->
  toordinal (fromordinal n) = n /\ valid_date (fromordinal n) = true.
Proof.
  unfold _MAXORDINAL. intros Hn.
  unfold fromordinal, toordinal. rewrite ord2ymd_shift.
  set (q := (n - 1) / 146097). set (r := (n - 1) mod 146097).
  assert (Hr : 0 <= r < 146097) by (apply Z.mod_pos_bound; lia).
  assert (Hq : n - 1 = 146097 * q + r) by (apply Z.div_mod; lia).
  assert (Hq0 : 0 <= q <= 24) by lia.
  destruct (cycle_ok_elim r (cycle_ok_all r Hr)) as (E1 & E2 & E3 & E4 & E5).
  revert E1 E2 E3 E4 E5. generalize (_ord2ymd (r + 1)). intros [y m d]. simpl.
  intros E1 E2 E3 E4 E5.
  unfold shift_years, valid_date, MINYEAR, MAXYEAR. simpl.
  rewrite ymd2ord_shift, days_in_month_shift.
  split; [lia|].
  repeat (apply andb_true_iff; split); lia.
Qed.

Lemma valid_date_bounds d :
  valid_date d = true ->
  1 <= year d <= 9999 /\ 1 <= month d <= 12
  /\ 1 <= day d <= _days_in_month (year d) (month d).
Proof.
  unfold valid_date, MINYEAR, MAXYEAR. intros H.
  repeat (apply andb_true_iff in H as [H ?]). lia.
Qed.

Lemma month_cases m :
  1 <= m <= 12 ->
  m = 1 \/ m = 2 \/ m = 3 \/ m = 4 \/ m = 5 \/ m = 6 \/ m = 7 \/ m = 8
  \/ m = 9 \/ m = 10 \/ m = 11 \/ m = 12.
Proof. lia. Qed.

(** Within a year: the days before a month and the month's length end
    where the next month starts. *)
Lemma month_end_le_next_start y m m' :
  1 <= m -> m < m' -> m' <= 12 ->
  _days_before_month y m + _days_in_month y m <= _days_before_month y m'.
Proof.
  intros H1 H2 H3. unfold _days_before_month, _days_in_month.
  destruct (_is_leap y);
    destruct (month_cases m ltac:(lia)) as [->| [->| [->| [->| [->| [->| [->| [->| [->| [->| [->| ->]]]]]]]]]]];
    destruct (month_cases m' ltac:(lia)) as [->| [->| [->| [->| [->| [->| [->| [->| [->| [->| [->| ->]]]]]]]]]]];
    simpl; lia.
Qed.

Lemma year_length y m :
  1 <= m <= 12 ->
  _days_before_month y m + _days_in_month y m
  <= 365 + (if _is_leap y then 1 else 0).
Proof.
  intros H. unfold _days_before_month, _days_in_month.
  destruct (_is_leap y);
    destruct (month_cases m H) as [->| [->| [->| [->| [->| [->| [->| [->| [->| [->| [->| ->]]]]]]]]]]];
    simpl; lia.
Qed.

Lemma days_before_month_nonneg y m : 1 <= m <= 12 -> 0 <= _days_before_month y m.
Proof.
  intros H. unfold _days_before_month.
  destruct (_is_leap y);
    destruct (month_cases m H) as [->| [->| [->| [->| [->| [->| [->| [->| [->| [->| [->| ->]]]]]]]]]]];
    simpl; lia.
Qed.

Lemma days_before_year_succ y :
  _days_before_year (y + 1) =
  _days_before_year y + 365 + (if _is_leap y then 1 else 0).
Proof.
  unfold _days_before_year, _is_leap. cbv zeta.
  replace (y + 1 - 1) with y by lia.
  destruct (Z.eqb_spec (y mod 4) 0), (Z.eqb_spec (y mod 100) 0),
    (Z.eqb_spec (y mod 400) 0); simpl; Z.to_euclidean_division_equations; lia.
Qed.

Lemma days_before_year_mono y y' :
  y <= y' -> _days_before_year y <= _days_before_year y'.
Proof.
  unfold _days_before_year. cbv zeta. intros H.
  Z.to_euclidean_division_equations; lia.
Qed.

Lemma toordinal_year_bounds d :
  valid_date d = true ->
  _days_before_year (year d) < toordinal d <= _days_before_year (year d + 1).
Proof.
  intros Hv. destruct (valid_date_bounds d Hv) as (Hy & Hm & Hd).
  unfold toordinal, _ymd2ord. rewrite days_before_year_succ.
  pose proof (year_length (year d) (month d) Hm).
  pose proof (days_before_month_nonneg (year d) (month d) Hm). lia.
Qed.

Lemma toordinal_lt a b :
  valid_date a = true -> valid_date b = true ->
  date_ltb a b = true -> toordinal a < toordinal b.
Proof.
  intros Ha Hb Hlt.
  pose proof (toordinal_year_bounds a Ha) as Ba.
  pose proof (toordinal_year_bounds b Hb) as Bb.
  destruct (valid_date_bounds a Ha) as (Hya & Hma & Hda).
  destruct (valid_date_bounds b Hb) as (Hyb & Hmb & Hdb).
  unfold date_ltb in Hlt.
  apply orb_true_iff in Hlt as [Hy | Hlt].
  - apply Z.ltb_lt in Hy.
    pose proof (days_before_year_mono (year a + 1) (year b) ltac:(lia)). lia.
  - apply andb_true_iff in Hlt as [Hy Hlt]. apply Z.eqb_eq in Hy.
    unfold toordinal, _ymd2ord. rewrite <- Hy.
    apply orb_true_iff in Hlt as [Hm | Hlt].
    + apply Z.ltb_lt in Hm.
      pose proof (month_end_le_next_start (year a) (month a) (month b)
                    ltac:(lia) Hm ltac:(lia)). lia.
    + apply andb_true_iff in Hlt as [Hm Hd].
      apply Z.eqb_eq in Hm. apply Z.ltb_lt in Hd. rewrite <- Hm. lia.
Qed.

Lemma date_trichotomy a b :
  date_ltb a b = true \/ a = b \/ date_ltb b a = true.
Proof.
  destruct a as [ya ma da], b as [yb mb db]. unfold date_ltb. simpl.
  destruct (Z.ltb_spec ya yb); [now left|].
  destruct (Z.ltb_spec yb ya); [right; right; reflexivity|].
  assert (ya = yb) by lia. subst yb. rewrite Z.eqb_refl. simpl.
  destruct (Z.ltb_spec ma mb); [now left|].
  destruct (Z.ltb_spec mb ma); [right; right; reflexivity|].
  assert (ma = mb) by lia. subst mb. rewrite Z.eqb_refl. simpl.
  destruct (Z.ltb_spec da db); [now left|].
  destruct (Z.ltb_spec db da); [right; right; reflexivity|].
  right; left. f_equal; lia.
Qed.

Lemma toordinal_inj a b :
  valid_date a = true -> valid_date b = true ->
  toordinal a = toordinal b -> a = b.
Proof.
  intros Ha Hb E.
  destruct (date_trichotomy a b) as [H | [H | H]]; [|exact H|].
  - pose proof (toordinal_lt a b Ha Hb H). lia.
  - pose proof (toordinal_lt b a Hb Ha H). lia.
Qed.

Lemma toordinal_range d :
  valid_date d = true -> 1 <= toordinal d <= _MAXORDINAL.
Proof.
  intros Hv. pose proof (toordinal_year_bounds d Hv) as B.
  destruct (valid_date_bounds d Hv) as (Hy & _).
  pose proof (days_before_year_mono 1 (year d) ltac:(lia)).
  pose proof (days_before_year_mono (year d + 1) 10000 ltac:(lia)).
  change (_days_before_year 1) with 0 in *.
  change (_days_before_year 10000) with 3652059 in *.
  unfold _MAXORDINAL. lia.
Qed.

Lemma fromordinal_toordinal d :
  valid_date d = true -> fromordinal (toordinal d) = d.
Proof.
  intros Hv.
  destruct (ordinal_roundtrip (toordinal d) (toordinal_range d Hv)) as [E V].
  apply toordinal_inj; assumption.
Qed.

Lemma date_leb_ltb a b : date_leb a b = negb (date_ltb b a).
Proof.
  destruct a as [ya ma da], b as [yb mb db]. unfold date_leb, date_ltb. simpl.
  destruct (Z.ltb_spec ya yb), (Z.ltb_spec yb ya), (Z.eqb_spec ya yb),
    (Z.eqb_spec yb ya), (Z.ltb_spec ma mb), (Z.ltb_spec mb ma),
    (Z.eqb_spec ma mb), (Z.eqb_spec mb ma), (Z.leb_spec da db),
    (Z.ltb_spec db da); simpl; try reflexivity; lia.
Qed.

Lemma date_leb_toordinal a b :
  valid_date a = true -> valid_date b = true ->
  date_leb a b = (toordinal a <=? toordinal b).
Proof.
  intros Ha Hb. rewrite date_leb_ltb.
  destruct (date_trichotomy b a) as [H | [H | H]].
  - rewrite H. pose proof (toordinal_lt b a Hb Ha H).
    simpl. symmetry. apply Z.leb_gt. lia.
  - subst b. destruct (date_ltb a a) eqn:E.
    + pose proof (toordinal_lt a a Ha Ha E). lia.
    + simpl. symmetry. apply Z.leb_le. lia.
  - pose proof (toordinal_lt a b Ha Hb H).
    destruct (date_ltb b a) eqn:E.
    + pose proof (toordinal_lt b a Hb Ha E). lia.
    + simpl. symmetry. apply Z.leb_le. lia.
Qed.

End CalendarFacts.

(** ** convert.py *)

Module ConvertFacts.
Import Calendar CalendarSpec Convert ConvertSpec CalendarFacts.

Lemma chunk_at_length data k :
  length (chunk_at data k) = Nat.min record_size (length data - k * record_size).
Proof. unfold chunk_at. now rewrite length_take, length_drop. Qed.

Lemma div_record_size_bounds (n : nat) :
  (n / record_size * record_size <= n < n / record_size * record_size + record_size)%nat.
Proof.
  unfold record_size.
  pose proof (Nat.div_mod_eq n 20). pose proof (Nat.mod_upper_bound n 20). lia.
Qed.

Lemma chunk_count_bounds (n : nat) :
  (n / record_size <= (n + (record_size - 1)) / record_size <= n / record_size + 1)%nat.
Proof.
  unfold record_size. simpl Nat.sub.
  pose proof (Nat.div_mod_eq n 20). pose proof (Nat.mod_upper_bound n 20).
  pose proof (Nat.div_mod_eq (n + 19) 20). pose proof (Nat.mod_upper_bound (n + 19) 20).
  lia.
Qed.

Lemma decode_loop_write_rows base data m : forall a out,
  (a + m = (length data + (record_size - 1)) / record_size)%nat ->
  decode_loop base data (map (fun k => (k * record_size)%nat) (seq a m)) out
  = write_rows base (map (chunk_at data) (seq a (length data / record_size - a))) out.
Proof.
  pose proof (div_record_size_bounds (length data)) as B.
  pose proof (chunk_count_bounds (length data)) as C.
  induction m as [|m IH]; intros a out Ha.
  - replace (length data / record_size - a)%nat with 0%nat by lia. reflexivity.
  - cbn [seq map decode_loop]. fold (chunk_at data a).
    rewrite chunk_at_length.
    destruct (Nat.ltb_spec (Nat.min record_size (length data - a * record_size)) record_size) as [Hlt|Hge].
    + replace (length data / record_size - a)%nat with 0%nat; [reflexivity|].
      unfold record_size in *. nia.
    + assert (Hk : (a < length data / record_size)%nat)
        by (unfold record_size in *; nia).
      replace (length data / record_size - a)%nat
        with (S (length data / record_size - S a)) by lia.
      cbn [seq map write_rows].
      destruct (row_of_chunk base (chunk_at data a)); [|reflexivity].
      apply IH. lia.
Qed.

Lemma decode_write_rows base data :
  decode base data = write_rows base (complete_chunks data) [Header csv_header].
Proof.
  unfold decode, chunk_offsets, complete_chunks.
  rewrite (decode_loop_write_rows base data _ 0%nat) by lia.
  now rewrite Nat.sub_0_r.
Qed.

Lemma complete_chunks_length data :
  length (complete_chunks data) = (length data / record_size)%nat.
Proof. unfold complete_chunks. now rewrite length_map, length_seq. Qed.

Lemma complete_chunks_lookup data k chunk :
  complete_chunks data !! k = Some chunk ->
  chunk = chunk_at data k /\ length chunk = record_size
  /\ (k < length data / record_size)%nat.
Proof.
  unfold complete_chunks. intros H.
  apply list_lookup_fmap_Some in H as (i & -> & Hi).
  apply lookup_seq in Hi as [-> Hk]. simpl.
  split; [reflexivity|]. split; [|exact Hk].
  rewrite chunk_at_length.
  pose proof (div_record_size_bounds (length data)). unfold record_size in *. nia.
Qed.

Lemma byte_val_range b : 0 <= Struct.byte_val b < 256.
Proof.
  unfold Struct.byte_val. pose proof (Byte.to_N_bounded b). lia.
Qed.

Lemma lor_shiftl_small hi lo k :
  0 <= k -> 0 <= lo < 2 ^ k -> Z.lor (Z.shiftl hi k) lo = hi * 2 ^ k + lo.
Proof.
  intros Hk Hlo. rewrite <- Z.shiftl_mul_pow2 by exact Hk.
  rewrite <- Z.add_lor_land.
  assert (E : Z.land (Z.shiftl hi k) lo = 0).
  { apply Z.bits_inj'. intros n Hn. rewrite Z.land_spec, Z.bits_0.
    destruct (Z.lt_ge_cases n k) as [Hlt|Hge].
    - rewrite Z.shiftl_spec_low by exact Hlt. reflexivity.
    - rewrite <- (Z.mod_small lo (2 ^ k)) by exact Hlo.
      rewrite Z.mod_pow2_bits_high by lia. apply andb_false_r. }
  rewrite E. lia.
Qed.

Lemma be_u32_value b0 b1 b2 b3 :
  Struct.be_u32 b0 b1 b2 b3
  = Struct.byte_val b0 * 2 ^ 24 + Struct.byte_val b1 * 2 ^ 16
    + Struct.byte_val b2 * 2 ^ 8 + Struct.byte_val b3.
Proof.
  unfold Struct.be_u32.
  pose proof (byte_val_range b0). pose proof (byte_val_range b1).
  pose proof (byte_val_range b2). pose proof (byte_val_range b3).
  rewrite (lor_shiftl_small (Struct.byte_val b2) _ 8) by lia.
  rewrite (lor_shiftl_small (Struct.byte_val b1) _ 16) by lia.
  rewrite (lor_shiftl_small (Struct.byte_val b0) _ 24) by lia.
  lia.
Qed.

Lemma be_u32_range b0 b1 b2 b3 : 0 <= Struct.be_u32 b0 b1 b2 b3 < 2 ^ 32.
Proof.
  rewrite be_u32_value.
  pose proof (byte_val_range b0). pose proof (byte_val_range b1).
  pose proof (byte_val_range b2). pose proof (byte_val_range b3).
  lia.
Qed.

Lemma testbit_31 u : 0 <= u < 2 ^ 32 -> Z.testbit u 31 = (2 ^ 31 <=? u).
Proof.
  intros Hu. destruct (Z.leb_spec (2 ^ 31) u) as [H|H].
  - apply Z.testbit_true; [lia|].
    change (2 ^ 31) with 2147483648 in *. change (2 ^ 32) with 4294967296 in *.
    assert (E : u / 2147483648 = 1) by (Z.to_euclidean_division_equations; lia).
    rewrite E. reflexivity.
  - apply Z.bits_above_log2; [lia|].
    destruct (Z.eq_dec u 0) as [->|]; [simpl; lia|].
    apply Z.log2_lt_pow2; lia.
Qed.

(** Format code [i]: the unsigned value when the top bit of the first
    byte is clear, and [2^32] less when it is set. *)
Lemma be_i32_value b0 b1 b2 b3 :
  Struct.be_i32 b0 b1 b2 b3
  = Struct.be_u32 b0 b1 b2 b3
    - (if 128 <=? Struct.byte_val b0 then 2 ^ 32 else 0).
Proof.
  unfold Struct.be_i32. cbv zeta.
  rewrite testbit_31 by apply be_u32_range.
  rewrite be_u32_value.
  pose proof (byte_val_range b0). pose proof (byte_val_range b1).
  pose proof (byte_val_range b2). pose proof (byte_val_range b3).
  repeat match goal with
         | |- context [?a <=? ?b] => destruct (Z.leb_spec a b)
         end; lia.
Qed.

Lemma be_i32_range b0 b1 b2 b3 :
  - 2 ^ 31 <= Struct.be_i32 b0 b1 b2 b3 < 2 ^ 31.
Proof.
  rewrite be_i32_value, be_u32_value.
  pose proof (byte_val_range b0). pose proof (byte_val_range b1).
  pose proof (byte_val_range b2). pose proof (byte_val_range b3).
  destruct (Z.leb_spec 128 (Struct.byte_val b0)); lia.
Qed.

Lemma be_i32_negative b0 b1 b2 b3 :
  128 <= Struct.byte_val b0 -> Struct.be_i32 b0 b1 b2 b3 < 0.
Proof.
  intros H. rewrite be_i32_value.
  pose proof (be_u32_range b0 b1 b2 b3).
  destruct (Z.leb_spec 128 (Struct.byte_val b0)); lia.
Qed.

Lemma timedelta_of_ms_us ms : timedelta_us (timedelta_of_ms ms) = 1000 * ms.
Proof.
  unfold timedelta_us, timedelta_of_ms. simpl.
  Z.to_euclidean_division_equations; lia.
Qed.

Lemma timedelta_of_us_us us : timedelta_us (timedelta_of_us us) = us.
Proof.
  unfold timedelta_us, timedelta_of_us. simpl.
  Z.to_euclidean_division_equations; lia.
Qed.

Lemma datetime_add_Some t delta t' :
  datetime_add t delta = Some t' ->
  datetime_us t' = datetime_us t + timedelta_us delta
  /\ valid_date (dt_date t') = true /\ valid_time t'.
Proof.
  unfold datetime_add. cbv zeta.
  set (x := datetime_us t + timedelta_us delta).
  destruct (Z.ltb_spec 0 (days (timedelta_of_us x))) as [H0|]; [|discriminate].
  destruct (Z.leb_spec (days (timedelta_of_us x)) _MAXORDINAL) as [H1|];
    [|discriminate].
  simpl. intros [= <-].
  destruct (ordinal_roundtrip (days (timedelta_of_us x)) ltac:(lia)) as [E V].
  split; [|split; [exact V|]].
  - rewrite <- (timedelta_of_us_us x) at 2.
    unfold datetime_us at 1. unfold timedelta_us. simpl.
    unfold timedelta_of_us in E. simpl in E. rewrite E.
    Z.to_euclidean_division_equations; lia.
  - unfold valid_time. simpl.
    Z.to_euclidean_division_equations; lia.
Qed.

Lemma datetime_add_None t delta :
  datetime_add t delta = None <->
  ~ (0 < (datetime_us t + timedelta_us delta) / 86400000000 <= _MAXORDINAL).
Proof.
  unfold datetime_add. cbv zeta. simpl.
  destruct (Z.ltb_spec 0 ((datetime_us t + timedelta_us delta) / 86400000000)),
    (Z.leb_spec ((datetime_us t + timedelta_us delta) / 86400000000) _MAXORDINAL);
    simpl; split; intros; try discriminate; try lia; reflexivity.
Qed.

(** Any 32-bit millisecond offset spans fewer than 25 days, so an anchor
    at least 25 days inside the calendar never overflows. *)
Lemma datetime_add_in_range d h ms :
  0 <= h <= 23 -> 25 < toordinal d <= _MAXORDINAL - 25 ->
  - 2 ^ 31 <= ms < 2 ^ 31 ->
  exists t, datetime_add (mkdatetime d h 0 0 0) (timedelta_of_ms ms) = Some t.
Proof.
  intros Hh Hd Hms.
  destruct (datetime_add _ _) as [t|] eqn:E; [now exists t|].
  exfalso. apply datetime_add_None in E. apply E.
  rewrite timedelta_of_ms_us. unfold datetime_us, timedelta_us. simpl.
  unfold _MAXORDINAL in *. change (2 ^ 31) with 2147483648 in Hms.
  Z.to_euclidean_division_equations; lia.
Qed.

Lemma unpack_complete (chunk : list byte) :
  length chunk = record_size ->
  exists a0 a1 a2 a3 b0 b1 b2 b3 c0 c1 c2 c3 d0 d1 d2 d3 e0 e1 e2 e3,
    chunk = [a0; a1; a2; a3; b0; b1; b2; b3; c0; c1; c2; c3;
             d0; d1; d2; d3; e0; e1; e2; e3].
Proof.
  unfold record_size. intros H.
  do 20 (destruct chunk as [|? chunk]; [discriminate H|]).
  destruct chunk; [|discriminate H]. repeat eexists.
Qed.

Lemma write_rows_spec base chunks : forall out,
  exists rows c,
    write_rows base chunks out = (c, out ++ map Tick rows)
    /\ Forall2 (fun chunk r => row_of_chunk base chunk = Returned r)
               (take (length rows) chunks) rows
    /\ ((c = Returned tt /\ length rows = length chunks)
        \/ (exists chunk e, chunks !! length rows = Some chunk
                            /\ row_of_chunk base chunk = Raised e
                            /\ c = Raised e)).
Proof.
  induction chunks as [|chunk rest IH]; intros out.
  - exists [], (Returned tt). simpl. rewrite app_nil_r.
    split; [reflexivity|]. split; [constructor|]. left. split; reflexivity.
  - simpl. destruct (row_of_chunk base chunk) as [r|e] eqn:E.
    + destruct (IH (out ++ [Tick r])) as (rows & c & Hw & Hf & Hc).
      exists (r :: rows), c. simpl. rewrite Hw, <- app_assoc.
      split; [reflexivity|]. split; [constructor; assumption|].
      destruct Hc as [[-> Hl] | (ch & e & H1 & H2 & H3)].
      * left. split; [reflexivity | now rewrite Hl].
      * right. exists ch, e. repeat split; assumption.
    + exists [], (Raised e). simpl. rewrite app_nil_r.
      split; [reflexivity|]. split; [constructor|].
      right. exists chunk, e. repeat split. exact E.
Qed.

Lemma rows_of_ticks rows : rows_of (map Tick rows) = rows.
Proof. induction rows as [|r rows IH]; simpl; [reflexivity|]. now rewrite IH. Qed.

Lemma unpack_fields chunk :
  length chunk = record_size ->
  Struct.unpack_iiiii chunk
  = Some (signed_field chunk 0, signed_field chunk 1, signed_field chunk 2,
          signed_field chunk 3, signed_field chunk 4).
Proof.
  intros H.
  destruct (unpack_complete chunk H)
    as (a0 & a1 & a2 & a3 & b0 & b1 & b2 & b3 & c0 & c1 & c2 & c3
        & d0 & d1 & d2 & d3 & e0 & e1 & e2 & e3 & ->).
  reflexivity.
Qed.

Lemma row_of_chunk_complete base chunk :
  length chunk = record_size ->
  row_of_chunk base chunk
  = match datetime_add base (timedelta_of_ms (signed_field chunk 0)) with
    | None => Raised OverflowError
    | Some t =>
        Returned (mkRow t
                        (PyFloat.int_truediv_100000 (signed_field chunk 1))
                        (PyFloat.int_truediv_100000 (signed_field chunk 2))
                        (signed_field chunk 3) (signed_field chunk 4))
    end.
Proof. intros H. unfold row_of_chunk. now rewrite (unpack_fields chunk H). Qed.

Lemma row_of_chunk_representable base chunk :
  length chunk = record_size ->
  representable base (signed_field chunk 0) ->
  exists r, row_of_chunk base chunk = Returned r.
Proof.
  intros H Hr. rewrite (row_of_chunk_complete base chunk H).
  destruct (datetime_add _ _) as [t|] eqn:E; [eexists; reflexivity|].
  exfalso. apply datetime_add_None in E. apply E.
  rewrite timedelta_of_ms_us. exact Hr.
Qed.

(** What [decode] has written: the header, then one row for each record
    of a prefix of the complete records; the prefix is everything, or it
    ends at the record on which the loop raised. *)
Lemma decode_spec base data :
  exists rows c,
    decode base data = (c, Header csv_header :: map Tick rows)
    /\ Forall2 (fun chunk r => row_of_chunk base chunk = Returned r)
               (take (length rows) (complete_chunks data)) rows
    /\ ((c = Returned tt /\ length rows = length (complete_chunks data))
        \/ (exists chunk e, complete_chunks data !! length rows = Some chunk
                            /\ row_of_chunk base chunk = Raised e
                            /\ c = Raised e)).
Proof.
  rewrite decode_write_rows.
  destruct (write_rows_spec base (complete_chunks data) [Header csv_header])
    as (rows & c & H1 & H2 & H3).
  exists rows, c. split; [exact H1|]. split; assumption.
Qed.

Lemma decode_rows_of base data rows c :
  decode base data = (c, Header csv_header :: map Tick rows) ->
  rows_of (snd (decode base data)) = rows.
Proof. intros ->. simpl. apply rows_of_ticks. Qed.

(** A row that was written comes from the complete record at the same
    position. *)
Lemma decode_row_origin base data k r :
  rows_of (snd (decode base data)) !! k = Some r ->
  exists chunk,
    complete_chunks data !! k = Some chunk
    /\ length chunk = record_size
    /\ row_of_chunk base chunk = Returned r.
Proof.
  destruct (decode_spec base data) as (rows & c & H1 & H2 & _).
  rewrite (decode_rows_of _ _ _ _ H1). intros Hk.
  destruct (Forall2_lookup_r _ _ _ _ _ H2 Hk) as (chunk & Hc & Hr).
  apply lookup_take_Some in Hc as [Hc _].
  exists chunk. split; [exact Hc|]. split; [|exact Hr].
  now apply complete_chunks_lookup in Hc.
Qed.

(** A complete record is written as a row once every record up to it
    has a representable timestamp. *)
Lemma decode_row_at base data k chunk :
  complete_chunks data !! k = Some chunk ->
  (forall j ch, (j <= k)%nat -> complete_chunks data !! j = Some ch ->
                representable base (signed_field ch 0)) ->
  exists r, rows_of (snd (decode base data)) !! k = Some r
            /\ row_of_chunk base chunk = Returned r.
Proof.
  intros Hk Hrep.
  destruct (decode_spec base data) as (rows & c & H1 & H2 & H3).
  rewrite (decode_rows_of _ _ _ _ H1).
  assert (Hlen : (k < length rows)%nat).
  { destruct H3 as [[_ Hl] | (ch & e & Hch & Hraise & _)].
    - rewrite Hl. now apply lookup_lt_Some in Hk.
    - destruct (Nat.lt_ge_cases k (length rows)) as [|Hge]; [assumption|].
      exfalso.
      destruct (row_of_chunk_representable base ch) as [r Hr].
      + now apply complete_chunks_lookup in Hch.
      + now apply (Hrep (length rows)).
      + congruence. }
  destruct (lookup_lt_is_Some_2 rows k Hlen) as [r Hr].
  exists r. split; [exact Hr|].
  destruct (Forall2_lookup_r _ _ _ _ _ H2 Hr) as (chunk' & Hc & Hrow).
  apply lookup_take_Some in Hc as [Hc _]. congruence.
Qed.

(** C1 (amended): the first four bytes of a complete record are read as
    a signed big-endian 32-bit integer, like the other four fields; when
    the instants of the records up to it are representable, the record's
    row is written and its timestamp is the anchor plus that many
    milliseconds.  With the top bit of the first byte set the offset is
    negative and the timestamp lies before the anchor. *)
Theorem decode_timestamp_signed base data k chunk :
  complete_chunks data !! k = Some chunk ->
  (forall j ch, (j <= k)%nat -> complete_chunks data !! j = Some ch ->
                representable base (signed_field ch 0)) ->
  exists r,
    rows_of (snd (decode base data)) !! k = Some r
    /\ Struct.unpack_iiiii chunk
       = Some (signed_field chunk 0, signed_field chunk 1,
               signed_field chunk 2, signed_field chunk 3,
               signed_field chunk 4)
    /\ signed_field chunk 0
       = unsigned_field chunk 0
         - (if 128 <=? Struct.byte_val (nth_byte chunk 0) then 2 ^ 32 else 0)
    /\ - 2 ^ 31 <= signed_field chunk 0 < 2 ^ 31
    /\ datetime_us (tick_time r)
       = datetime_us base + 1000 * signed_field chunk 0
    /\ valid_date (dt_date (tick_time r)) = true
    /\ valid_time (tick_time r)
    /\ (128 <= Struct.byte_val (nth_byte chunk 0) ->
        signed_field chunk 0 < 0
        /\ datetime_us (tick_time r) < datetime_us base).
Proof.
  intros Hk Hrep.
  destruct (decode_row_at base data k chunk Hk Hrep) as (r & Hr & Hrow).
  destruct (complete_chunks_lookup _ _ _ Hk) as (_ & Hlen & _).
  rewrite (row_of_chunk_complete base chunk Hlen) in Hrow.
  destruct (datetime_add _ _) as [t|] eqn:E; [|discriminate].
  injection Hrow as <-. simpl.
  destruct (datetime_add_Some _ _ _ E) as (Hus & Hvd & Hvt).
  rewrite timedelta_of_ms_us in Hus.
  exists (mkRow t (PyFloat.int_truediv_100000 (signed_field chunk 1))
                (PyFloat.int_truediv_100000 (signed_field chunk 2))
                (signed_field chunk 3) (signed_field chunk 4)).
  simpl. split; [exact Hr|].
  split; [now apply unpack_fields|].
  split; [exact (be_i32_value (nth_byte chunk 0) (nth_byte chunk 1)
                              (nth_byte chunk 2) (nth_byte chunk 3))|].
  split; [exact (be_i32_range (nth_byte chunk 0) (nth_byte chunk 1)
                              (nth_byte chunk 2) (nth_byte chunk 3))|].
  split; [exact Hus|]. split; [exact Hvd|]. split; [exact Hvt|].
  intros Htop.
  pose proof (be_i32_negative (nth_byte chunk 0) (nth_byte chunk 1)
                (nth_byte chunk 2) (nth_byte chunk 3) Htop) as Hneg.
  change (signed_field chunk 0 < 0) in Hneg. lia.
Qed.

Lemma decode_timestamp_signed_witness :
  exists r,
    rows_of (snd (decode anchor_2024_11_03_05
                         (pack_record (-1) 109234 109210 3 5))) !! 0%nat
    = Some r
    /\ datetime_us (tick_time r) = datetime_us anchor_2024_11_03_05 - 1000.
Proof.
  destruct (decode_timestamp_signed anchor_2024_11_03_05
              (pack_record (-1) 109234 109210 3 5) 0
              (pack_record (-1) 109234 109210 3 5))
    as (r & H1 & _ & _ & _ & H5 & _).
  - reflexivity.
  - intros j ch Hj Hch. assert (j = 0%nat) as -> by lia.
    injection Hch as <-. vm_compute. split; [reflexivity | discriminate].
  - exists r. split; [exact H1 | exact H5].
Defined.

(** C1 as stated fails: a record starting with byte 0xFF is not read as
    the unsigned offset 4294967295 but as -1, and its timestamp is one
    millisecond before the anchor. *)
Lemma decode_offset_not_unsigned :
  let data := pack_record (-1) 109234 109210 3 5 in
  complete_chunks data = [data]
  /\ unsigned_field data 0 = 4294967295
  /\ exists r,
       snd (decode anchor_2024_11_03_05 data) = [Header csv_header; Tick r]
       /\ tick_time r = mkdatetime (mkdate 2024 11 3) 4 59 59 999000
       /\ datetime_us (tick_time r)
          <> datetime_us anchor_2024_11_03_05 + 1000 * unsigned_field data 0.
Proof.
  cbv zeta. split; [reflexivity|]. split; [reflexivity|].
  eexists. split; [vm_compute; reflexivity|].
  split; [reflexivity|]. vm_compute. discriminate.
Qed.

Lemma complete_chunks_count (data : list byte) (N r : nat) :
  length data = (record_size * N + r)%nat -> (r < record_size)%nat ->
  (length data / record_size)%nat = N.
Proof.
  intros H Hr. pose proof (div_record_size_bounds (length data)).
  unfold record_size in *. nia.
Qed.

Lemma chunk_at_take (data : list byte) (n k : nat) :
  (k < n)%nat -> chunk_at (take (n * record_size) data) k = chunk_at data k.
Proof.
  intros Hk. unfold chunk_at.
  rewrite !take_drop_commute, take_take.
  do 2 f_equal. unfold record_size. lia.
Qed.

(** The bytes after the last complete record play no part. *)
Lemma decode_ignores_remainder base (data : list byte) :
  decode base (take (length data / record_size * record_size) data)
  = decode base data.
Proof.
  rewrite !decode_write_rows. f_equal. unfold complete_chunks.
  pose proof (div_record_size_bounds (length data)) as B.
  rewrite length_take, Nat.min_l by lia.
  rewrite Nat.div_mul by (unfold record_size; lia).
  apply map_ext_in. intros k Hk. apply in_seq in Hk.
  apply chunk_at_take. lia.
Qed.

(** C2 (amended): when the instant of every complete record is
    representable, a buffer of [20 * N + r] bytes with [r < 20] decodes
    without an exception to the header and exactly [N] rows, the k-th row
    from the k-th complete record; the [r] trailing bytes change
    nothing. *)
Theorem decode_one_row_per_chunk base (data : list byte) :
  (forall chunk, In chunk (complete_chunks data) ->
                 representable base (signed_field chunk 0)) ->
  exists rows,
    decode base data = (Returned tt, Header csv_header :: map Tick rows)
    /\ Forall2 (fun chunk r => row_of_chunk base chunk = Returned r)
               (complete_chunks data) rows
    /\ (forall N r : nat,
          length data = (record_size * N + r)%nat -> (r < record_size)%nat ->
          length rows = N
          /\ complete_chunks data = map (chunk_at data) (seq 0 N)
          /\ decode base (take (record_size * N) data) = decode base data).
Proof.
  intros Hrep.
  destruct (decode_spec base data) as (rows & c & H1 & H2 & H3).
  assert (Hall : c = Returned tt /\ length rows = length (complete_chunks data)).
  { destruct H3 as [H3 | (ch & e & Hch & Hraise & _)]; [exact H3|].
    exfalso. destruct (row_of_chunk_representable base ch) as [r Hr].
    - now apply complete_chunks_lookup in Hch.
    - apply Hrep. apply list_elem_of_In. eapply list_elem_of_lookup_2, Hch.
    - congruence. }
  destruct Hall as [-> Hlen].
  rewrite Hlen, firstn_all in H2.
  exists rows. split; [exact H1|]. split; [exact H2|].
  intros N r HN Hr.
  pose proof (complete_chunks_count data N r HN Hr) as Hcount.
  split; [now rewrite Hlen, complete_chunks_length|].
  split; [unfold complete_chunks; now rewrite Hcount|].
  rewrite <- (decode_ignores_remainder base data), Hcount.
  now rewrite (Nat.mul_comm record_size N).
Qed.

Lemma decode_one_row_per_chunk_witness :
  exists rows,
    decode anchor_2024_11_03_05
           (pack_record 1500 109234 109210 3 5
            ++ pack_record 2500 109235 109211 1 2 ++ [x01; x02; x03])
    = (Returned tt, Header csv_header :: map Tick rows)
    /\ length rows = 2%nat.
Proof.
  destruct (decode_one_row_per_chunk anchor_2024_11_03_05
              (pack_record 1500 109234 109210 3 5
               ++ pack_record 2500 109235 109211 1 2 ++ [x01; x02; x03]))
    as (rows & H1 & _ & H3).
  - intros chunk [<- | [<- | []]]; vm_compute; (split; [reflexivity | discriminate]).
  - exists rows. split; [exact H1|].
    apply (H3 2%nat 3%nat); [reflexivity | unfold record_size; lia].
Defined.

(** C2 as stated fails at the end of the calendar: the one complete
    record of this 20-byte buffer lies an hour after 9999-12-31 23:00,
    the addition raises, and no row is written. *)
Lemma decode_overflow_no_row :
  let data := pack_record 3600000 109234 109210 3 5 in
  length data = (record_size * 1 + 0)%nat
  /\ decode anchor_9999_12_31_23 data
     = (Raised OverflowError, [Header csv_header])
  /\ rows_of (snd (decode anchor_9999_12_31_23 data)) = [].
Proof. cbv zeta. repeat split; vm_compute; reflexivity. Qed.

(** C3: every row written carries the prices of its record, the raw
    integers divided by 100000.0 in binary64, and the volumes as they
    are; the record of the scenario decodes to 2024-11-03 05:00:01.500
    with the doubles nearest to 1.09234 and 1.09210, and volumes 3, 5. *)
Theorem decode_prices_and_volumes :
  (forall base data k r,
     rows_of (snd (decode base data)) !! k = Some r ->
     exists chunk,
       complete_chunks data !! k = Some chunk
       /\ ask_price r
          = PyFloat.div (PyFloat.of_int (signed_field chunk 1))
                        (PyFloat.of_int 100000)
       /\ bid_price r
          = PyFloat.div (PyFloat.of_int (signed_field chunk 2))
                        (PyFloat.of_int 100000)
       /\ ask_vol r = signed_field chunk 3
       /\ bid_vol r = signed_field chunk 4)
  /\ exists ask bid,
       decode anchor_2024_11_03_05 (pack_record 1500 109234 109210 3 5)
       = (Returned tt,
          [Header csv_header;
           Tick (mkRow (mkdatetime (mkdate 2024 11 3) 5 0 1 500000)
                       ask bid 3 5)])
       /\ nearest_binary64 109234 100000 ask = true
       /\ nearest_binary64 109210 100000 bid = true.
Proof.
  split.
  - intros base data k r Hk.
    destruct (decode_row_origin base data k r Hk) as (chunk & Hc & Hlen & Hrow).
    exists chunk. split; [exact Hc|].
    rewrite (row_of_chunk_complete base chunk Hlen) in Hrow.
    destruct (datetime_add _ _) as [t|]; [|discriminate].
    injection Hrow as <-. repeat split.
  - eexists _, _. split; [vm_compute; reflexivity|].
    split; vm_compute; reflexivity.
Qed.

Lemma decode_prices_and_volumes_witness :
  exists chunk,
    complete_chunks (pack_record 1500 109234 109210 3 5) !! 0%nat = Some chunk
    /\ signed_field chunk 1 = 109234
    /\ signed_field chunk 3 = 3.
Proof.
  destruct (proj1 decode_prices_and_volumes anchor_2024_11_03_05
              (pack_record 1500 109234 109210 3 5) 0%nat
              (mkRow (mkdatetime (mkdate 2024 11 3) 5 0 1 500000)
                     (PyFloat.int_truediv_100000 109234)
                     (PyFloat.int_truediv_100000 109210) 3 5))
    as (chunk & Hc & _ & _ & Hv & _).
  - vm_compute. reflexivity.
  - exists chunk. split; [exact Hc|].
    injection Hc as <-. split; reflexivity.
Defined.

(** C4 (amended): when decompression fails, [bi5_to_csv] deals with the
    failure itself: it prints the error, returns normally, so that no
    exception reaches the caller, and writes no row. *)
Theorem bi5_to_csv_lzma_error_handled
    (lzma_decompress : list byte -> lzma_result)
    (csv_text : list csv_line -> list byte)
    (bi5_path csv_path : string) (base_date : date) (h : Z) (w : world)
    (compressed_data : list byte) (e : string) :
  0 <= h <= 23 ->
  files w !! bi5_path = Some compressed_data ->
  lzma_decompress compressed_data = LZMAError e ->
  bi5_to_csv lzma_decompress csv_text bi5_path csv_path base_date h w
  = (Returned tt,
     mkworld (files w)
             (stdout w ++ ["Error decompressing " +:+ bi5_path +:+ ": " +:+ e])).
Proof.
  intros Hh Hfile Herr. unfold bi5_to_csv, replace_hour.
  destruct (Z.leb_spec 0 h); [|lia]. destruct (Z.leb_spec h 23); [|lia].
  simpl. rewrite Hfile, Herr. reflexivity.
Qed.

Lemma bi5_to_csv_lzma_error_handled_witness :
  bi5_to_csv lzma_rejects csv_blank "in.bi5" "out.csv" (mkdate 2024 11 3) 5
             corrupt_world
  = (Returned tt,
     mkworld (files corrupt_world)
             ["Error decompressing in.bi5: Corrupt input data"]).
Proof.
  apply (bi5_to_csv_lzma_error_handled lzma_rejects csv_blank "in.bi5" "out.csv"
           (mkdate 2024 11 3) 5 corrupt_world [x00; x01] "Corrupt input data").
  - lia.
  - reflexivity.
  - reflexivity.
Defined.

(** C4 as stated fails: on a corrupt artifact the call does not end in
    an exception; it returns. *)
Lemma bi5_to_csv_lzma_error_not_raised :
  files corrupt_world !! "in.bi5" = Some [x00; x01]
  /\ lzma_rejects [x00; x01] = LZMAError "Corrupt input data"
  /\ fst (bi5_to_csv lzma_rejects csv_blank "in.bi5" "out.csv"
                     (mkdate 2024 11 3) 5 corrupt_world)
     = Returned tt
  /\ forall e, fst (bi5_to_csv lzma_rejects csv_blank "in.bi5" "out.csv"
                               (mkdate 2024 11 3) 5 corrupt_world)
               <> Raised e.
Proof.
  split; [reflexivity|]. split; [reflexivity|]. split; [reflexivity|].
  intros e. discriminate.
Qed.

(** C10: when the decompression of the input fails, no file is created
    or changed; what was at the output path stays. *)
Theorem bi5_to_csv_lzma_error_keeps_files
    (lzma_decompress : list byte -> lzma_result)
    (csv_text : list csv_line -> list byte)
    (bi5_path csv_path : string) (base_date : date) (h : Z) (w : world)
    (compressed_data : list byte) (e : string) :
  files w !! bi5_path = Some compressed_data ->
  lzma_decompress compressed_data = LZMAError e ->
  let w' := snd (bi5_to_csv lzma_decompress csv_text bi5_path csv_path
                            base_date h w) in
  files w' = files w /\ files w' !! csv_path = files w !! csv_path.
Proof.
  intros Hfile Herr. unfold bi5_to_csv.
  destruct (replace_hour base_date h); simpl.
  - rewrite Hfile, Herr. simpl. split; reflexivity.
  - split; reflexivity.
Qed.

Lemma bi5_to_csv_lzma_error_keeps_files_witness :
  files (snd (bi5_to_csv lzma_rejects csv_blank "in.bi5" "out.csv"
                         (mkdate 2024 11 3) 5 corrupt_world))
  !! "out.csv" = Some [x41].
Proof.
  destruct (bi5_to_csv_lzma_error_keeps_files lzma_rejects csv_blank
              "in.bi5" "out.csv" (mkdate 2024 11 3) 5 corrupt_world
              [x00; x01] "Corrupt input data") as [_ H].
  - reflexivity.
  - reflexivity.
  - rewrite H. reflexivity.
Defined.

End ConvertFacts.

(** ** downloader.py *)

Module DownloaderFacts.
Import Calendar CalendarSpec Downloader DownloaderSpec CalendarFacts.

Lemma ord_range_length c n : length (ord_range c n) = n.
Proof. revert c. induction n; intros c; simpl; [reflexivity|]. now rewrite IHn. Qed.

Lemma ord_range_app c n m :
  ord_range c (n + m) = ord_range c n ++ ord_range (c + Z.of_nat n) m.
Proof.
  revert c. induction n as [|n IH]; intros c.
  - simpl. f_equal. lia.
  - simpl. rewrite IH. do 3 f_equal. lia.
Qed.

Lemma ord_range_In c n z : z ∈ ord_range c n <-> c <= z < c + Z.of_nat n.
Proof.
  revert c. induction n as [|n IH]; intros c; simpl.
  - rewrite elem_of_nil. lia.
  - rewrite elem_of_cons, IH. lia.
Qed.

Lemma ord_range_NoDup c n : NoDup (ord_range c n).
Proof.
  revert c. induction n as [|n IH]; intros c; simpl; constructor.
  - rewrite ord_range_In. lia.
  - apply IH.
Qed.

Lemma tasks_loop_ok instrument output_folder end_date n :
  valid_date end_date = true ->
  toordinal end_date < _MAXORDINAL ->
  forall fuel c acc,
    (n < fuel)%nat -> 1 <= c -> c + Z.of_nat n = toordinal end_date + 1 ->
    tasks_loop fuel instrument output_folder (fromordinal c) end_date acc
    = Some (Returned
              (acc ++ flat_map (tasks_of_day instrument output_folder)
                               (map fromordinal (ord_range c n)))).
Proof.
  intros Hv Hmax. induction n as [|n IH]; intros fuel c acc Hf Hc He;
    (destruct fuel as [|fuel]; [lia|]);
    destruct (ordinal_roundtrip c ltac:(lia)) as [Ec Vc];
    simpl; rewrite (date_leb_toordinal _ _ Vc Hv), Ec.
  - destruct (Z.leb_spec c (toordinal end_date)); [lia|].
    now rewrite app_nil_r.
  - destruct (Z.leb_spec c (toordinal end_date)); [|lia].
    unfold date_add_days. rewrite Ec.
    destruct (Z.ltb_spec 0 (c + 1)); [|lia].
    destruct (Z.leb_spec (c + 1) _MAXORDINAL); [|lia]. simpl.
    rewrite (IH fuel (c + 1)) by lia.
    now rewrite <- app_assoc.
Qed.

Lemma build_tasks_ok instrument output_folder start_date end_date :
  valid_date start_date = true -> valid_date end_date = true ->
  date_leb start_date end_date = true ->
  toordinal end_date < _MAXORDINAL ->
  build_tasks instrument start_date end_date output_folder
  = Some (Returned (flat_map (tasks_of_day instrument output_folder)
                             (days_between start_date end_date))).
Proof.
  intros Hs He Hle Hmax. unfold build_tasks, days_between.
  rewrite (date_leb_toordinal _ _ Hs He) in Hle. apply Z.leb_le in Hle.
  pose proof (toordinal_range _ Hs).
  rewrite <- (fromordinal_toordinal start_date Hs) at 2.
  rewrite (tasks_loop_ok instrument output_folder end_date
             (Z.to_nat (toordinal end_date - toordinal start_date + 1)) He Hmax);
    [reflexivity | lia | lia | lia].
Qed.

Lemma task_keys_of_day instrument output_folder c :
  1 <= c <= _MAXORDINAL ->
  map task_key (tasks_of_day instrument output_folder (fromordinal c))
  = ord_range (24 * c) 24.
Proof.
  intros Hc. destruct (ordinal_roundtrip c Hc) as [Ec _].
  revert Ec. generalize (fromordinal c). intros [y m d] E.
  unfold tasks_of_day, hours, task_key. simpl.
  unfold toordinal in E. simpl in E. unfold toordinal. simpl. rewrite E.
  repeat (f_equal; [lia|]). f_equal. lia.
Qed.

Lemma task_keys_range instrument output_folder n : forall c,
  1 <= c -> c + Z.of_nat n <= _MAXORDINAL + 1 ->
  map task_key (flat_map (tasks_of_day instrument output_folder)
                         (map fromordinal (ord_range c n)))
  = ord_range (24 * c) (24 * n).
Proof.
  induction n as [|n IH]; intros c Hc Hn; [reflexivity|].
  cbn [ord_range map flat_map]. rewrite map_app.
  rewrite task_keys_of_day by lia. rewrite IH by lia.
  replace (24 * S n)%nat with (24 + 24 * n)%nat by lia.
  rewrite ord_range_app. do 2 f_equal. lia.
Qed.

Lemma before_date_max d :
  valid_date d = true -> d <> date_max -> toordinal d < _MAXORDINAL.
Proof.
  intros Hv Hne. pose proof (toordinal_range d Hv).
  destruct (Z.eq_dec (toordinal d) _MAXORDINAL) as [E|]; [|lia].
  exfalso. apply Hne. apply toordinal_inj; [assumption|reflexivity|exact E].
Qed.

Lemma NoDup_map_inv {A B : Type} (f : A -> B) (l : list A) :
  NoDup (map f l) -> NoDup l.
Proof.
  induction l as [|a l IH]; simpl; intros H; [constructor|].
  inversion H as [|? ? Hn Hd]; subst. constructor; [|now apply IH].
  intros Hin. apply Hn. apply list_elem_of_In, in_map, list_elem_of_In, Hin.
Qed.

Lemma hours_In h : In h hours <-> 0 <= h <= 23.
Proof.
  unfold hours. rewrite in_map_iff. split.
  - intros (k & <- & Hk). apply in_seq in Hk. lia.
  - intros Hh. exists (Z.to_nat h). split; [lia|]. apply in_seq. lia.
Qed.

Lemma tasks_of_day_length i o d : length (tasks_of_day i o d) = 24%nat.
Proof. reflexivity. Qed.

Lemma flat_map_tasks_length i o l :
  length (flat_map (tasks_of_day i o) l) = (24 * length l)%nat.
Proof.
  induction l as [|d l IH]; [reflexivity|].
  cbn [flat_map]. rewrite length_app, IH, tasks_of_day_length. simpl. lia.
Qed.

Lemma days_between_In start_date end_date d :
  valid_date start_date = true -> valid_date end_date = true ->
  valid_date d = true ->
  In d (days_between start_date end_date)
  <-> date_leb start_date d = true /\ date_leb d end_date = true.
Proof.
  intros Hs He Hd. unfold days_between.
  rewrite (date_leb_toordinal _ _ Hs Hd), (date_leb_toordinal _ _ Hd He).
  rewrite !Z.leb_le, in_map_iff.
  pose proof (toordinal_range _ Hs). pose proof (toordinal_range _ He).
  split.
  - intros (z & Ez & Hz). apply list_elem_of_In, ord_range_In in Hz.
    destruct (ordinal_roundtrip z ltac:(lia)) as [E _].
    rewrite Ez in E. lia.
  - intros [H1 H2]. exists (toordinal d). split.
    + now apply fromordinal_toordinal.
    + apply list_elem_of_In, ord_range_In. lia.
Qed.

Lemma days_between_valid start_date end_date d :
  valid_date start_date = true -> valid_date end_date = true ->
  In d (days_between start_date end_date) -> valid_date d = true.
Proof.
  intros Hs He. unfold days_between. rewrite in_map_iff.
  pose proof (toordinal_range _ Hs). pose proof (toordinal_range _ He).
  intros (z & <- & Hz). apply list_elem_of_In, ord_range_In in Hz.
  apply ordinal_roundtrip. lia.
Qed.

(** C8 (amended): for an end date before [date.max], the task list is
    built without an exception and holds exactly one task per day of
    [start_date .. end_date] and hour of [0 .. 23], day by day and hour
    by hour in ascending order, without duplicates; two days give 48. *)
Theorem build_tasks_enumerates instrument output_folder start_date end_date :
  valid_date start_date = true -> valid_date end_date = true ->
  date_leb start_date end_date = true ->
  end_date <> date_max ->
  exists tasks,
    build_tasks instrument start_date end_date output_folder
      = Some (Returned tasks)
    /\ tasks = flat_map (tasks_of_day instrument output_folder)
                        (days_between start_date end_date)
    /\ Z.of_nat (length tasks)
       = 24 * (toordinal end_date - toordinal start_date + 1)
    /\ map task_key tasks
       = ord_range (24 * toordinal start_date) (length tasks)
    /\ NoDup tasks
    /\ (forall d h, valid_date d = true ->
          In (mktask instrument (year d) (month d) (day d) h output_folder)
             tasks
          <-> date_leb start_date d = true /\ date_leb d end_date = true
              /\ 0 <= h <= 23)
    /\ (toordinal end_date = toordinal start_date + 1 ->
        length tasks = 48%nat).
Proof.
  intros Hs He Hle Hne.
  pose proof (before_date_max _ He Hne) as Hmax.
  pose proof (toordinal_range _ Hs) as Rs.
  assert (Hle' : toordinal start_date <= toordinal end_date)
    by (rewrite (date_leb_toordinal _ _ Hs He) in Hle; now apply Z.leb_le).
  eexists. split; [now apply build_tasks_ok|]. split; [reflexivity|].
  assert (Hlen : length (flat_map (tasks_of_day instrument output_folder)
                                  (days_between start_date end_date))
                 = (24 * Z.to_nat (toordinal end_date - toordinal start_date + 1))%nat).
  { rewrite flat_map_tasks_length. unfold days_between.
    now rewrite length_map, ord_range_length. }
  assert (Hkeys : map task_key
                    (flat_map (tasks_of_day instrument output_folder)
                              (days_between start_date end_date))
                  = ord_range (24 * toordinal start_date)
                      (24 * Z.to_nat (toordinal end_date - toordinal start_date + 1))).
  { unfold days_between. apply task_keys_range; lia. }
  split; [rewrite Hlen; lia|].
  split; [now rewrite Hlen|].
  split; [apply (NoDup_map_inv task_key); rewrite Hkeys; apply ord_range_NoDup|].
  split; [|intros E; rewrite Hlen, E;
           replace (toordinal start_date + 1 - toordinal start_date + 1) with 2 by lia;
           reflexivity].
  intros d h Hd. rewrite in_flat_map. split.
  - intros (d' & Hd' & Hin). unfold tasks_of_day in Hin.
    apply in_map_iff in Hin as (h' & Eq & Hh'). injection Eq as Ey Em Eday Eh.
    assert (d' = d) by (destruct d, d'; simpl in *; congruence). subst d' h'.
    apply (days_between_In _ _ _ Hs He Hd) in Hd'. apply hours_In in Hh'. tauto.
  - intros (H1 & H2 & Hh). exists d. split.
    + apply (days_between_In _ _ _ Hs He Hd). tauto.
    + unfold tasks_of_day. apply in_map_iff. exists h. split; [reflexivity|].
      now apply hours_In.
Qed.

Lemma build_tasks_enumerates_witness :
  exists tasks,
    build_tasks "EURUSD" (mkdate 2024 2 28) (mkdate 2024 2 29) "data"
      = Some (Returned tasks)
    /\ length tasks = 48%nat.
Proof.
  destruct (build_tasks_enumerates "EURUSD" "data" (mkdate 2024 2 28) (mkdate 2024 2 29))
    as (tasks & H1 & _ & _ & _ & _ & _ & H7);
    [reflexivity | reflexivity | reflexivity | discriminate |].
  exists tasks. split; [exact H1 | apply H7; reflexivity].
Defined.

Lemma build_tasks_date_max_raises :
  valid_date date_max = true
  /\ date_leb date_max date_max = true
  /\ build_tasks "EURUSD" date_max date_max "data" = Some (Raised OverflowError).
Proof. repeat split; vm_compute; reflexivity. Qed.

Section Facts.

Variable int_of_str : string -> option Z.
Variable net : network.

Lemma fs_after_no_write fs trace :
  forallb (fun ev => negb (is_file_write ev)) trace = true ->
  fs_after fs trace = fs.
Proof.
  unfold fs_after. revert fs.
  induction trace as [|ev trace IH]; intros fs H; [reflexivity|].
  simpl in H. apply andb_true_iff in H as [Hev H].
  simpl. destruct ev; simpl in Hev; try discriminate; simpl; now apply IH.
Qed.

Lemma probe_trace fs url filepath o evs :
  probe int_of_str net fs url filepath = (o, evs) ->
  (evs = [] \/ evs = [EvHead url])
  /\ (forall r, o = Some r -> r = SkippedSameSize filepath /\ evs = [EvHead url]).
Proof.
  unfold probe. intros H.
  repeat match type of H with
         | context [match ?x with _ => _ end] => destruct x
         end;
    injection H as <- <-; (split; [auto|]); intros r Hr;
    try discriminate Hr; injection Hr as <-; auto.
Qed.

Lemma transfer_cases fs url filepath :
  (exists o, failure url o
             /\ transfer net fs url filepath = (o, [EvGet url])
             /\ transfer_failed (get net url))
  \/ (exists new_data local,
        get net url = GetResponse 200 new_data /\ new_data <> []
        /\ fs !! filepath = Some local
        /\ length new_data = length local
        /\ transfer net fs url filepath
           = (SkippedSameSizeAfterGet filepath, [EvGet url]))
  \/ (exists new_data,
        get net url = GetResponse 200 new_data /\ new_data <> []
        /\ (forall local, fs !! filepath = Some local ->
                          length new_data <> length local)
        /\ transfer net fs url filepath
           = (Downloaded filepath,
              [EvGet url; EvOpenWb filepath; EvWrite filepath new_data;
               EvClose filepath])).
Proof.
  unfold transfer, failure. destruct (get net url) as [e | st content] eqn:G.
  - left. eexists. split; [right; eexists; reflexivity|].
    split; [reflexivity | exact I].
  - destruct (Z.eqb_spec st 200) as [->|Hst]; simpl.
    + destruct (bool_decide_reflect (content = [])) as [->|Hne]; simpl.
      * left. eexists. split; [left; eexists; reflexivity|].
        split; [reflexivity | now right].
      * destruct (fs !! filepath) as [local|].
        -- destruct (Nat.eqb_spec (length content) (length local)) as [E|E].
           ++ right; left. exists content, local. auto.
           ++ right; right. exists content.
              split; [reflexivity|]. split; [exact Hne|].
              split; [|reflexivity]. intros l [= <-]. exact E.
        -- right; right. exists content.
           split; [reflexivity|]. split; [exact Hne|].
           split; [|reflexivity]. intros l H. discriminate H.
    + left. eexists. split; [left; eexists; reflexivity|].
      split; [reflexivity | now left].
Qed.

Lemma transfer_failed_not_delivered url new_data :
  get net url = GetResponse 200 new_data -> new_data <> [] ->
  ~ transfer_failed (get net url).
Proof. intros -> Hne [H | H]; [now apply H | now apply Hne]. Qed.

End Facts.

(** C5: a local artifact that is not empty, a HEAD answered with status
    200 and a Content-Length equal to the local size: the call returns
    the "Skipped (same size)" message after the HEAD alone; there is no
    GET and no file is opened or written. *)
Theorem download_skips_on_size_match
    (int_of_str : string -> option Z) (net : network)
    (fs : gmap string (list byte)) (instrument : string)
    (year month day hour : Z) (output_folder : string)
    (local : list byte) (content_length : string) :
  let url := url_of instrument year month day hour in
  let filepath := filepath_of output_folder instrument year month day hour in
  fs !! filepath = Some local ->
  local <> [] ->
  head net url = HeadResponse 200 (Some content_length) ->
  int_of_str content_length = Some (Z.of_nat (length local)) ->
  exists trace,
    download_one_hour int_of_str net fs instrument year month day hour
                      output_folder
    = (SkippedSameSize filepath, trace)
    /\ trace = [EvMakedirs (folder_of output_folder instrument); EvHead url]
    /\ ~ In (EvGet url) trace
    /\ forallb (fun ev => negb (is_file_write ev)) trace = true
    /\ fs_after fs trace = fs
    /\ message (SkippedSameSize filepath)
       = "Skipped (same size): " +:+ filepath.
Proof.
  intros url filepath Hlocal Hne Hhead Hint.
  eexists. split.
  - unfold download_one_hour, probe. fold url. fold filepath.
    rewrite Hlocal, Hhead, Hint. simpl.
    destruct (Z.ltb_spec 0 (Z.of_nat (length local))) as [_|Hz].
    + rewrite Z.eqb_refl. reflexivity.
    + destruct local; [congruence | simpl in Hz; lia].
  - split; [reflexivity|]. split.
    + simpl. intros [H | [H | []]]; discriminate H.
    + split; [reflexivity|]. split; reflexivity.
Qed.

Lemma download_skips_on_size_match_witness :
  exists trace,
    download_one_hour int_of_digits server_3_bytes
                      {[ eurusd_path := [x01; x02; x03] ]}
                      "EURUSD" 2024 11 3 5 "data"
    = (SkippedSameSize eurusd_path, trace)
    /\ fs_after {[ eurusd_path := [x01; x02; x03] ]} trace
       = {[ eurusd_path := [x01; x02; x03] ]}.
Proof.
  destruct (download_skips_on_size_match int_of_digits server_3_bytes
              {[ eurusd_path := [x01; x02; x03] ]}
              "EURUSD" 2024 11 3 5 "data" [x01; x02; x03] "3")
    as (trace & H1 & _ & _ & _ & H5 & _).
  - vm_compute. reflexivity.
  - discriminate.
  - reflexivity.
  - reflexivity.
  - exists trace. split; [exact H1 | exact H5].
Defined.

(** C6: when the GET is made and does not deliver (an exception, a
    status other than 200 or an empty body), the call returns one of the
    two failure messages and no file is opened or written: every file is
    as it was. *)
Theorem download_failure_keeps_files
    (int_of_str : string -> option Z) (net : network)
    (fs : gmap string (list byte)) (instrument : string)
    (year month day hour : Z) (output_folder : string) :
  let url := url_of instrument year month day hour in
  let run := download_one_hour int_of_str net fs instrument year month day
                               hour output_folder in
  transfer_failed (get net url) ->
  In (EvGet url) (snd run) ->
  failure url (fst run)
  /\ forallb (fun ev => negb (is_file_write ev)) (snd run) = true
  /\ fs_after fs (snd run) = fs.
Proof.
  intros url run Hfail Hget. subst run. revert Hget.
  unfold download_one_hour. fold url.
  set (filepath := filepath_of output_folder instrument year month day hour).
  destruct (probe int_of_str net fs url filepath) as [o evs] eqn:P.
  destruct (probe_trace _ _ _ _ _ _ _ P) as [Hevs Ho].
  destruct o as [r|].
  - destruct (Ho r eq_refl) as [-> ->]. simpl.
    intros [H | [H | []]]; discriminate H.
  - intros _.
    destruct (transfer_cases net fs url filepath)
      as [(o & Hf & -> & _)
         | [(d & local & G & Hd & _ & _ & _) | (d & G & Hd & _ & _)]].
    + simpl. split; [exact Hf|].
      assert (Hw : forallb (fun ev => negb (is_file_write ev))
                           (EvMakedirs (folder_of output_folder instrument)
                            :: evs ++ [EvGet url]) = true)
        by (destruct Hevs as [-> | ->]; reflexivity).
      split; [exact Hw | now apply fs_after_no_write].
    + exfalso. exact (transfer_failed_not_delivered net url d G Hd Hfail).
    + exfalso. exact (transfer_failed_not_delivered net url d G Hd Hfail).
Qed.

Lemma download_failure_keeps_files_witness :
  let run := download_one_hour int_of_digits server_down
                               {[ eurusd_path := [x01; x02; x03] ]}
                               "EURUSD" 2024 11 3 5 "data" in
  fst run
  = ErrorDownloading
      "https://datafeed.dukascopy.com/datafeed/EURUSD/2024/11/03/05h_ticks.bi5"
      "timed out"
  /\ fs_after {[ eurusd_path := [x01; x02; x03] ]} (snd run)
     = {[ eurusd_path := [x01; x02; x03] ]}.
Proof.
  destruct (download_failure_keeps_files int_of_digits server_down
              {[ eurusd_path := [x01; x02; x03] ]}
              "EURUSD" 2024 11 3 5 "data") as (_ & _ & H).
  - exact I.
  - vm_compute. auto.
  - split; [vm_compute; reflexivity | exact H].
Defined.

Lemma download_trace_shape
    (int_of_str : string -> option Z) (net : network)
    (fs : gmap string (list byte)) (instrument : string)
    (year month day hour : Z) (output_folder : string) :
  let url := url_of instrument year month day hour in
  let filepath := filepath_of output_folder instrument year month day hour in
  let run := download_one_hour int_of_str net fs instrument year month day
                               hour output_folder in
  (forallb (fun ev => negb (is_file_write ev)) (snd run) = true
   /\ fst run <> Downloaded filepath)
  \/ (exists pre new_data,
        get net url = GetResponse 200 new_data /\ new_data <> []
        /\ (forall local, fs !! filepath = Some local ->
                          length new_data <> length local)
        /\ forallb (fun ev => negb (is_file_write ev)) pre = true
        /\ run = (Downloaded filepath,
                  pre ++ [EvOpenWb filepath; EvWrite filepath new_data;
                          EvClose filepath])).
Proof.
  intros url filepath run. subst run. unfold download_one_hour.
  fold url. fold filepath.
  destruct (probe int_of_str net fs url filepath) as [o evs] eqn:P.
  destruct (probe_trace _ _ _ _ _ _ _ P) as [Hevs Ho].
  destruct o as [r|].
  - destruct (Ho r eq_refl) as [-> ->]. left. simpl. split; [reflexivity|].
    discriminate.
  - destruct (transfer_cases net fs url filepath)
      as [(o & Hf & -> & _)
         | [(d & local & _ & _ & _ & _ & ->) | (d & G & Hd & Hl & ->)]].
    + left. simpl. split.
      * destruct Hevs as [-> | ->]; reflexivity.
      * destruct Hf as [[st ->] | [e ->]]; discriminate.
    + left. simpl. split.
      * destruct Hevs as [-> | ->]; reflexivity.
      * discriminate.
    + right. exists (EvMakedirs (folder_of output_folder instrument)
                     :: evs ++ [EvGet url]), d.
      split; [exact G|]. split; [exact Hd|]. split; [exact Hl|]. split.
      * destruct Hevs as [-> | ->]; reflexivity.
      * simpl. rewrite <- app_assoc. reflexivity.
Qed.

Lemma fs_after_app fs t1 t2 :
  fs_after fs (t1 ++ t2) = fs_after (fs_after fs t1) t2.
Proof. unfold fs_after. apply foldl_app. Qed.

(** C7 (amended): a call that writes does so in place: after events
    that touch no file it opens the artifact's own path for writing,
    which empties it, writes the whole body there and closes it.  There
    is no temporary file and no rename.  Between the open and the write
    the artifact is on disk with no content; at the end it holds the
    body. *)
Theorem download_writes_in_place
    (int_of_str : string -> option Z) (net : network)
    (fs : gmap string (list byte)) (instrument : string)
    (year month day hour : Z) (output_folder : string) :
  let url := url_of instrument year month day hour in
  let filepath := filepath_of output_folder instrument year month day hour in
  let run := download_one_hour int_of_str net fs instrument year month day
                               hour output_folder in
  fst run = Downloaded filepath ->
  exists pre new_data,
    get net url = GetResponse 200 new_data /\ new_data <> []
    /\ snd run = pre ++ [EvOpenWb filepath; EvWrite filepath new_data;
                         EvClose filepath]
    /\ fs_after fs pre = fs
    /\ fs_after fs (pre ++ [EvOpenWb filepath]) = <[filepath := []]> fs
    /\ fs_after fs (snd run) = <[filepath := new_data]> fs.
Proof.
  intros url filepath run Hrun.
  destruct (download_trace_shape int_of_str net fs instrument year month day
              hour output_folder)
    as [[_ Hne] | (pre & d & G & Hd & _ & Hpre & E)].
  - exfalso. apply Hne. exact Hrun.
  - fold run in E. exists pre, d.
    split; [exact G|]. split; [exact Hd|].
    split; [now rewrite E|].
    pose proof (fs_after_no_write fs pre Hpre) as Hfs.
    split; [exact Hfs|].
    split; [rewrite fs_after_app, Hfs; reflexivity|].
    rewrite E. simpl. rewrite fs_after_app, Hfs. unfold fs_after. simpl.
    rewrite lookup_insert_eq. simpl. apply insert_insert_eq.
Qed.

Lemma download_writes_in_place_witness :
  exists pre,
    fs_after stale_disk (pre ++ [EvOpenWb eurusd_path])
    = <[eurusd_path := []]> stale_disk.
Proof.
  destruct (download_writes_in_place int_of_digits server_3_bytes stale_disk
              "EURUSD" 2024 11 3 5 "data")
    as (pre & d & _ & _ & _ & _ & H & _).
  - vm_compute. reflexivity.
  - exists pre. exact H.
Defined.

(** C7 as stated fails: replacing the stale two-byte artifact by the
    three-byte one, the call opens the artifact itself (no temporary
    file, no rename), and after the first four events the artifact is
    on disk empty: neither the old content nor the new. *)
Lemma download_write_not_atomic :
  let run := download_one_hour int_of_digits server_3_bytes stale_disk
                               "EURUSD" 2024 11 3 5 "data" in
  run = (Downloaded eurusd_path,
         [EvMakedirs "data/EURUSD";
          EvHead "https://datafeed.dukascopy.com/datafeed/EURUSD/2024/11/03/05h_ticks.bi5";
          EvGet "https://datafeed.dukascopy.com/datafeed/EURUSD/2024/11/03/05h_ticks.bi5";
          EvOpenWb eurusd_path;
          EvWrite eurusd_path [x0a; x0b; x0c];
          EvClose eurusd_path])
  /\ stale_disk !! eurusd_path = Some [x01; x02]
  /\ fs_after stale_disk (take 4 (snd run)) !! eurusd_path = Some []
  /\ fs_after stale_disk (snd run) !! eurusd_path = Some [x0a; x0b; x0c].
Proof.
  cbv zeta. split; [vm_compute; reflexivity|].
  split; [reflexivity|]. split; reflexivity.
Qed.

(** C9: whatever the server answers, a body that the call writes has at
    least one byte and goes to the artifact's path, and the call leaves
    no file empty that was not empty before. *)
Theorem download_never_writes_empty
    (int_of_str : string -> option Z) (net : network)
    (fs : gmap string (list byte)) (instrument : string)
    (year month day hour : Z) (output_folder : string) :
  let filepath := filepath_of output_folder instrument year month day hour in
  let run := download_one_hour int_of_str net fs instrument year month day
                               hour output_folder in
  (forall path data, In (EvWrite path data) (snd run) ->
                     path = filepath /\ (1 <= length data)%nat)
  /\ (forall path, fs_after fs (snd run) !! path = Some [] ->
                   fs !! path = Some []).
Proof.
  intros filepath run.
  destruct (download_trace_shape int_of_str net fs instrument year month day
              hour output_folder)
    as [[Hnw _] | (pre & d & G & Hd & _ & Hpre & E)]; fold run in Hnw || fold run in E.
  - split.
    + intros path data Hin. exfalso.
      rewrite forallb_forall in Hnw. specialize (Hnw _ Hin). discriminate Hnw.
    + intros path. now rewrite (fs_after_no_write fs _ Hnw).
  - rewrite E. simpl. split.
    + intros path data Hin. apply in_app_or in Hin as [Hin | Hin].
      * exfalso. rewrite forallb_forall in Hpre. specialize (Hpre _ Hin).
        discriminate Hpre.
      * destruct Hin as [H | [H | [H | []]]]; try discriminate H.
        injection H as <- <-. split; [reflexivity|].
        destruct d; [congruence | simpl; lia].
    + intros path. rewrite fs_after_app, (fs_after_no_write fs pre Hpre).
      unfold fs_after. simpl. rewrite lookup_insert_eq. simpl.
      rewrite insert_insert_eq.
      destruct (decide (filepath = path)) as [<- | Hne].
      * rewrite lookup_insert_eq. intros [= ->]. congruence.
      * now rewrite lookup_insert_ne.
Qed.

End DownloaderFacts.

(** ** convert.py: the whole conversion *)

Module ConvertMore.
Import Calendar CalendarSpec Convert ConvertSpec ConvertNotions.
Import CalendarFacts ConvertFacts.

Lemma row_of_chunk_raises base chunk e :
  length chunk = record_size ->
  row_of_chunk base chunk = Raised e ->
  e = OverflowError /\ ~ representable base (signed_field chunk 0).
Proof.
  intros Hlen. rewrite (row_of_chunk_complete base chunk Hlen).
  destruct (datetime_add _ _) as [t|] eqn:E; [discriminate|].
  intros [= <-]. split; [reflexivity|].
  apply datetime_add_None in E. now rewrite timedelta_of_ms_us in E.
Qed.

(** The loop of [bi5_to_csv] has two ways to end.  It returns after one
    row per complete record; or it raises [OverflowError] at the first
    record whose instant the calendar does not have, with the rows of the
    records before it written.  The header is the first line either way,
    and [struct.error] never occurs. *)
Theorem decode_outcomes base (data : list byte) :
  exists rows c,
    decode base data = (c, Header csv_header :: map Tick rows)
    /\ (length rows <= length data / record_size)%nat
    /\ (forall k r, rows !! k = Some r ->
          exists chunk, complete_chunks data !! k = Some chunk
                        /\ row_of_chunk base chunk = Returned r)
    /\ ((c = Returned tt
         /\ length rows = (length data / record_size)%nat)
        \/ (c = Raised OverflowError
            /\ (length rows < length data / record_size)%nat
            /\ exists chunk,
                 complete_chunks data !! length rows = Some chunk
                 /\ ~ representable base (signed_field chunk 0))).
Proof.
  destruct (decode_spec base data) as (rows & c & H1 & H2 & H3).
  exists rows, c. split; [exact H1|].
  assert (Hle : (length rows <= length data / record_size)%nat).
  { rewrite <- complete_chunks_length.
    destruct H3 as [[_ ->] | (ch & e & Hch & _)]; [lia|].
    apply lookup_lt_Some in Hch. lia. }
  split; [exact Hle|]. split.
  - intros k r Hk.
    destruct (Forall2_lookup_r _ _ _ _ _ H2 Hk) as (chunk & Hc & Hr).
    apply lookup_take_Some in Hc as [Hc _]. eauto.
  - destruct H3 as [[-> Hl] | (ch & e & Hch & Hraise & ->)].
    + left. split; [reflexivity|]. now rewrite Hl, complete_chunks_length.
    + right.
      destruct (complete_chunks_lookup _ _ _ Hch) as (_ & Hlen & Hlt).
      destruct (row_of_chunk_raises base ch e Hlen Hraise) as [-> Hrep].
      split; [reflexivity|]. split; [exact Hlt|]. eauto.
Qed.

Lemma write_rows_app base c1 : forall c2 out rows1,
  write_rows base c1 out = (Returned tt, out ++ map Tick rows1) ->
  write_rows base (c1 ++ c2) out
  = write_rows base c2 (out ++ map Tick rows1).
Proof.
  induction c1 as [|ch c1 IH]; intros c2 out rows1; simpl.
  - intros [= E]. rewrite <- E. reflexivity.
  - destruct (row_of_chunk base ch) as [r|e]; [|discriminate].
    intros H.
    destruct (write_rows_spec base c1 (out ++ [Tick r])) as (rs & c & Hw & _).
    rewrite Hw in H. injection H as -> E.
    rewrite <- app_assoc in E. apply app_inv_head in E.
    rewrite (IH c2 (out ++ [Tick r]) rs) by exact Hw.
    f_equal. rewrite <- E, <- app_assoc. reflexivity.
Qed.

Lemma write_rows_shift base chunks : forall out out' c lines,
  write_rows base chunks out = (c, out ++ lines) ->
  write_rows base chunks out' = (c, out' ++ lines).
Proof.
  induction chunks as [|ch chunks IH]; intros out out' c lines; simpl.
  - intros [= <- E]. f_equal.
    rewrite <- (app_nil_r out) in E at 1. apply app_inv_head in E.
    now rewrite <- E, app_nil_r.
  - destruct (row_of_chunk base ch) as [r|e].
    + intros H.
      destruct (write_rows_spec base chunks (out ++ [Tick r]))
        as (rs & c' & Hw & _).
      rewrite Hw in H. injection H as Ec E.
      rewrite <- app_assoc in E. apply app_inv_head in E. subst lines c.
      rewrite (IH (out ++ [Tick r]) (out' ++ [Tick r]) c' (map Tick rs) Hw).
      now rewrite <- app_assoc.
    + intros [= <- E]. f_equal.
      rewrite <- (app_nil_r out) in E at 1. apply app_inv_head in E.
      now rewrite <- E, app_nil_r.
Qed.

Lemma chunk_at_app_l (d1 d2 : list byte) k :
  (k * record_size + record_size <= length d1)%nat ->
  chunk_at (d1 ++ d2) k = chunk_at d1 k.
Proof.
  intros H. unfold chunk_at.
  rewrite !take_drop_commute. rewrite take_app_le by lia. reflexivity.
Qed.

Lemma chunk_at_app_r (d1 d2 : list byte) n k :
  length d1 = (n * record_size)%nat ->
  chunk_at (d1 ++ d2) (n + k) = chunk_at d2 k.
Proof.
  intros H. unfold chunk_at.
  replace ((n + k) * record_size)%nat with (length d1 + k * record_size)%nat
    by lia.
  now rewrite drop_app_add.
Qed.

Lemma complete_chunks_app (d1 d2 : list byte) n :
  length d1 = (n * record_size)%nat ->
  complete_chunks (d1 ++ d2) = complete_chunks d1 ++ complete_chunks d2.
Proof.
  intros H. unfold complete_chunks.
  rewrite length_app, H.
  replace ((n * record_size + length d2) / record_size)%nat
    with (n + length d2 / record_size)%nat
    by (symmetry; apply Nat.div_add_l; unfold record_size; lia).
  rewrite Nat.div_mul by (unfold record_size; lia).
  rewrite seq_app, map_app. f_equal.
  - apply map_ext_in. intros k Hk. apply in_seq in Hk.
    apply chunk_at_app_l. unfold record_size in *. nia.
  - simpl. rewrite <- (Nat.add_0_r n) at 1. rewrite <- (fmap_add_seq n 0).
    rewrite map_map. apply map_ext. intros k. now apply chunk_at_app_r.
Qed.



(** Records are decoded one by one: for a first buffer made of whole
    records that decodes without an exception, decoding it followed by a
    second buffer gives the rows of the first, then what the second
    gives alone. *)
Theorem decode_app base (d1 d2 : list byte) (n : nat) rows1 :
  length d1 = (n * record_size)%nat ->
  decode base d1 = (Returned tt, Header csv_header :: map Tick rows1) ->
  exists rows2 c,
    decode base d2 = (c, Header csv_header :: map Tick rows2)
    /\ decode base (d1 ++ d2)
       = (c, Header csv_header :: map Tick (rows1 ++ rows2)).
Proof.
  intros Hlen H1.
  destruct (decode_spec base d2) as (rows2 & c & H2 & _).
  exists rows2, c. split; [exact H2|].
  rewrite decode_write_rows in *.
  rewrite (complete_chunks_app d1 d2 n Hlen).
  rewrite (write_rows_app base _ _ [Header csv_header] rows1 H1).
  rewrite map_app.
  apply (write_rows_shift base _ [Header csv_header]
           ([Header csv_header] ++ map Tick rows1) c (map Tick rows2)).
  exact H2.
Qed.

Lemma decode_app_witness :
  exists rows2 c,
    decode anchor_2024_11_03_05
           (pack_record 1500 109234 109210 3 5
            ++ pack_record 2500 109235 109211 1 2)
    = (c, Header csv_header
          :: map Tick ([mkRow (mkdatetime (mkdate 2024 11 3) 5 0 1 500000)
                              (PyFloat.int_truediv_100000 109234)
                              (PyFloat.int_truediv_100000 109210) 3 5]
                       ++ rows2)).
Proof.
  destruct (decode_app anchor_2024_11_03_05
              (pack_record 1500 109234 109210 3 5)
              (pack_record 2500 109235 109211 1 2) 1
              [mkRow (mkdatetime (mkdate 2024 11 3) 5 0 1 500000)
                     (PyFloat.int_truediv_100000 109234)
                     (PyFloat.int_truediv_100000 109210) 3 5])
    as (rows2 & c & _ & H).
  - reflexivity.
  - vm_compute. reflexivity.
  - exists rows2, c. exact H.
Defined.

(** Fewer than 20 bytes after the last whole record change nothing,
    whether the decoding returns or raises. *)
Theorem decode_stray_bytes base (data tail : list byte) (n : nat) :
  length data = (n * record_size)%nat ->
  (length tail < record_size)%nat ->
  decode base (data ++ tail) = decode base data.
Proof.
  intros Hlen Htail.
  rewrite <- (decode_ignores_remainder base (data ++ tail)).
  rewrite length_app, Hlen.
  rewrite Nat.div_add_l by (unfold record_size; lia).
  rewrite (Nat.div_small (length tail)) by exact Htail.
  rewrite Nat.add_0_r, <- Hlen.
  now rewrite take_app_length.
Qed.

Lemma decode_stray_bytes_witness :
  decode anchor_2024_11_03_05
         (pack_record 1500 109234 109210 3 5 ++ [x01; x02; x03])
  = decode anchor_2024_11_03_05 (pack_record 1500 109234 109210 3 5).
Proof.
  apply (decode_stray_bytes anchor_2024_11_03_05
           (pack_record 1500 109234 109210 3 5) [x01; x02; x03] 1).
  - reflexivity.
  - unfold record_size. simpl. lia.
Defined.

Section Bi5ToCsvFacts.

Variable lzma_decompress : list byte -> lzma_result.
Variable csv_text : list csv_line -> list byte.


(** The two exceptions raised before anything is read or written: an
    hour outside 0..23 gives [ValueError], also when the input file is
    missing; with a valid hour a missing input file gives
    [FileNotFoundError].  The files and the output are untouched. *)
Theorem bi5_to_csv_early_errors (bi5_path csv_path : string)
    (base_date : date) (h : Z) (w : world) :
  (~ 0 <= h <= 23 ->
   bi5_to_csv lzma_decompress csv_text bi5_path csv_path base_date h w
   = (Raised ValueError, w))
  /\ (0 <= h <= 23 -> files w !! bi5_path = None ->
      bi5_to_csv lzma_decompress csv_text bi5_path csv_path base_date h w
      = (Raised FileNotFoundError, w)).
Proof.
  unfold bi5_to_csv, replace_hour. split.
  - intros Hh.
    destruct (Z.leb_spec 0 h); destruct (Z.leb_spec h 23); simpl;
      try reflexivity; lia.
  - intros Hh Hfile.
    destruct (Z.leb_spec 0 h); [|lia]. destruct (Z.leb_spec h 23); [|lia].
    simpl. now rewrite Hfile.
Qed.


End Bi5ToCsvFacts.


Lemma bi5_to_csv_early_errors_witness :
  bi5_to_csv lzma_stored csv_blank "in.bi5" "out.csv" (mkdate 2024 11 3) 24
             two_tick_world
  = (Raised ValueError, two_tick_world)
  /\ bi5_to_csv lzma_stored csv_blank "missing.bi5" "out.csv"
                (mkdate 2024 11 3) 5 two_tick_world
     = (Raised FileNotFoundError, two_tick_world).
Proof.
  split.
  - apply (proj1 (bi5_to_csv_early_errors lzma_stored csv_blank "in.bi5"
                    "out.csv" (mkdate 2024 11 3) 24 two_tick_world)). lia.
  - apply (proj2 (bi5_to_csv_early_errors lzma_stored csv_blank "missing.bi5"
                    "out.csv" (mkdate 2024 11 3) 5 two_tick_world)).
    + lia.
    + reflexivity.
Defined.


(** [bi5_to_csv] writes no file but the output file: every other path,
    the input artifact included when it is another path, is after the
    call as it was before, however the call ends. *)
Theorem bi5_to_csv_frame (lzma_decompress : list byte -> lzma_result)
    (csv_text : list csv_line -> list byte)
    (bi5_path csv_path : string) (base_date : date) (h : Z) (w : world)
    (path : string) :
  path <> csv_path ->
  files (snd (bi5_to_csv lzma_decompress csv_text bi5_path csv_path
                         base_date h w)) !! path
  = files w !! path.
Proof.
  intros Hpath. unfold bi5_to_csv.
  destruct (replace_hour base_date h) as [base|]; [|reflexivity].
  destruct (files w !! bi5_path) as [compressed|]; [|reflexivity].
  destruct (lzma_decompress compressed) as [data | e]; [|reflexivity].
  destruct (decode base data) as [c lines].
  destruct c; simpl; apply lookup_insert_ne; congruence.
Qed.

Lemma bi5_to_csv_frame_witness :
  files (snd (bi5_to_csv lzma_stored csv_blank "in.bi5" "out.csv"
                         (mkdate 2024 11 3) 5 two_tick_world)) !! "in.bi5"
  = files two_tick_world !! "in.bi5".
Proof.
  apply (bi5_to_csv_frame lzma_stored csv_blank "in.bi5" "out.csv"
           (mkdate 2024 11 3) 5 two_tick_world "in.bi5").
  discriminate.
Defined.

End ConvertMore.

(** ** downloader.py: every path of a call, and the calls of a run *)

Module DownloaderMore.
Import Calendar CalendarSpec Downloader DownloaderSpec DownloaderNotions Pool.
Import CalendarFacts DownloaderFacts.

Section More.

Variable int_of_str : string -> option Z.
Variable net : network.

Lemma probe_cases fs url filepath :
  (exists local,
     fs !! filepath = Some local /\ local <> []
     /\ head_confirms int_of_str net url local
     /\ probe int_of_str net fs url filepath
        = (Some (SkippedSameSize filepath), [EvHead url]))
  \/ (exists local,
        fs !! filepath = Some local /\ local <> []
        /\ ~ head_confirms int_of_str net url local
        /\ probe int_of_str net fs url filepath = (None, [EvHead url]))
  \/ ((fs !! filepath = None \/ fs !! filepath = Some [])
      /\ probe int_of_str net fs url filepath = (None, [])).
Proof.
  unfold probe, head_confirms. destruct (fs !! filepath) as [local|] eqn:L.
  - destruct local as [|b local].
    + right; right. simpl. auto.
    + assert (Hpos : (0 <? Z.of_nat (length (b :: local))) = true)
        by (apply Z.ltb_lt; simpl; lia).
      rewrite Hpos.
      destruct (head net url) as [|st cl] eqn:H.
      * right; left. exists (b :: local).
        repeat split; try discriminate. intros (s & Hs & _). discriminate Hs.
      * destruct (Z.eqb_spec st 200) as [->|Hst].
        -- destruct cl as [s|].
           ++ destruct (int_of_str s) as [n|] eqn:I.
              ** destruct (Z.eqb_spec n (Z.of_nat (length (b :: local))))
                   as [->|Hn].
                 --- left. exists (b :: local).
                     repeat split; try discriminate. exists s. auto.
                 --- right; left. exists (b :: local).
                     repeat split; try discriminate.
                     intros (s' & Hs & Hi). injection Hs as <-. congruence.
              ** right; left. exists (b :: local).
                 repeat split; try discriminate.
                 intros (s' & Hs & Hi). injection Hs as <-. congruence.
           ++ right; left. exists (b :: local).
              repeat split; try discriminate.
              intros (s' & Hs & _). discriminate Hs.
        -- right; left. exists (b :: local).
           repeat split; try discriminate.
           intros (s' & Hs & _). injection Hs as E _. contradiction.
  - right; right. auto.
Qed.

Lemma fs_after_write_events fs pre path data :
  forallb (fun ev => negb (is_file_write ev)) pre = true ->
  fs_after fs (pre ++ write_events path data) = <[path := data]> fs.
Proof.
  intros Hpre. rewrite fs_after_app, (fs_after_no_write fs pre Hpre).
  unfold fs_after. simpl. rewrite lookup_insert_eq. simpl.
  apply insert_insert_eq.
Qed.

End More.

Section Runs.

Variable int_of_str : string -> option Z.
Variable net : network.
Variable fs : gmap string (list byte).
Variable instrument : string.
Variables year month day hour : Z.
Variable output_folder : string.

Let url := url_of instrument year month day hour.
Let folder := folder_of output_folder instrument.
Let filepath := filepath_of output_folder instrument year month day hour.
Let run := download_one_hour int_of_str net fs instrument year month day hour
                             output_folder.

(** Every way a call can go, with what it did. *)
Lemma download_cases :
  (exists local,
     fs !! filepath = Some local /\ local <> []
     /\ head_confirms int_of_str net url local
     /\ run = (SkippedSameSize filepath, [EvMakedirs folder; EvHead url]))
  \/ (exists heads o,
        ((heads = [EvHead url]
          /\ exists local, fs !! filepath = Some local /\ local <> []
                           /\ ~ head_confirms int_of_str net url local)
         \/ (heads = []
             /\ (fs !! filepath = None \/ fs !! filepath = Some [])))
        /\ ((failure url o /\ transfer_failed (get net url)
             /\ run = (o, EvMakedirs folder :: heads ++ [EvGet url]))
            \/ (exists new_data local,
                  get net url = GetResponse 200 new_data /\ new_data <> []
                  /\ fs !! filepath = Some local
                  /\ length new_data = length local
                  /\ o = SkippedSameSizeAfterGet filepath
                  /\ run = (o, EvMakedirs folder :: heads ++ [EvGet url]))
            \/ (exists new_data,
                  get net url = GetResponse 200 new_data /\ new_data <> []
                  /\ (forall local, fs !! filepath = Some local ->
                                    length new_data <> length local)
                  /\ o = Downloaded filepath
                  /\ run = (o, EvMakedirs folder :: heads ++ [EvGet url]
                                ++ write_events filepath new_data)))).
Proof.
  subst run. unfold download_one_hour. fold url. fold folder. fold filepath.
  destruct (probe_cases int_of_str net fs url filepath)
    as [(local & L & Hne & Hc & ->)
       | [(local & L & Hne & Hc & ->) | (L & ->)]].
  - left. exists local. auto.
  - right.
    destruct (transfer_cases net fs url filepath)
      as [(o & Hf & -> & Hfail)
         | [(d & l & G & Hd & Hl & Hlen & ->) | (d & G & Hd & Hl & ->)]].
    + exists [EvHead url], o. split; [left; eauto|]. left. repeat split; auto.
    + exists [EvHead url], (SkippedSameSizeAfterGet filepath).
      split; [left; eauto|]. right; left. exists d, l. repeat split; auto.
    + exists [EvHead url], (Downloaded filepath).
      split; [left; eauto|]. right; right. exists d. repeat split; auto.
  - right.
    destruct (transfer_cases net fs url filepath)
      as [(o & Hf & -> & Hfail)
         | [(d & l & G & Hd & Hl & Hlen & ->) | (d & G & Hd & Hl & ->)]].
    + exists [], o. split; [right; auto|]. left. repeat split; auto.
    + exists [], (SkippedSameSizeAfterGet filepath).
      split; [right; auto|]. right; left. exists d, l. repeat split; auto.
    + exists [], (Downloaded filepath).
      split; [right; auto|]. right; right. exists d. repeat split; auto.
Qed.

End Runs.

Section Runs.

Variable int_of_str : string -> option Z.
Variable net : network.
Variable fs : gmap string (list byte).
Variable instrument : string.
Variables year month day hour : Z.
Variable output_folder : string.

Let url := url_of instrument year month day hour.
Let folder := folder_of output_folder instrument.
Let filepath := filepath_of output_folder instrument year month day hour.
Let run := download_one_hour int_of_str net fs instrument year month day hour
                             output_folder.

Ltac fold_names url folder filepath :=
  repeat match goal with
         | H : context [url_of _ _ _ _ _] |- _ => progress fold url in H
         | H : context [folder_of _ _] |- _ => progress fold folder in H
         | H : context [filepath_of _ _ _ _ _ _] |- _ =>
             progress fold filepath in H
         end;
  try fold url; try fold folder; try fold filepath.

Lemma trace_assoc (ev : event) (heads gets writes : list event) :
  ev :: heads ++ gets ++ writes = (ev :: heads ++ gets) ++ writes.
Proof. simpl. now rewrite <- app_assoc. Qed.

Ltac cases :=
  destruct (download_cases int_of_str net fs instrument year month day hour
              output_folder)
    as [(cl & cL & cNe & cC & cE)
       | (heads & o & cH
          & [(cF & cFail & cE)
            | [(cd & cl2 & cG & cD & cLk & cLen & cO & cE)
              | (cd & cG & cD & cLk & cO & cE)]])];
  fold_names url folder filepath; fold run in cE.


(** A local file as long as the body the server delivers is never
    replaced, whatever the two contain: the call skips, by the HEAD or
    after the GET, and writes nothing. *)
Theorem download_same_size_kept (local new_data : list byte) :
  fs !! filepath = Some local -> local <> [] ->
  get net url = GetResponse 200 new_data ->
  length new_data = length local ->
  skipped filepath (fst run)
  /\ forallb (fun ev => negb (is_file_write ev)) (snd run) = true
  /\ fs_after fs (snd run) = fs.
Proof.
  intros Hfs Hne Hget Hlen.
  assert (Hnd : new_data <> [])
    by (intros ->; destruct local; [congruence | discriminate]).
  assert (H : skipped filepath (fst run)
              /\ forallb (fun ev => negb (is_file_write ev)) (snd run) = true).
  { cases.
    - rewrite cE. split; [now left | reflexivity].
    - exfalso. exact (transfer_failed_not_delivered net url new_data Hget Hnd cFail).
    - rewrite cE. subst o. split; [now right|].
      destruct cH as [(-> & _) | (-> & _)]; reflexivity.
    - exfalso. rewrite Hget in cG. injection cG as <-.
      exact (cLk local Hfs Hlen). }
  destruct H as [H1 H2]. split; [exact H1|]. split; [exact H2|].
  now apply fs_after_no_write.
Qed.

(** A local file of another size than the body, and a HEAD that does not
    confirm its size: the body replaces the file. *)
Theorem download_replaces (local new_data : list byte) :
  fs !! filepath = Some local -> local <> [] ->
  ~ head_confirms int_of_str net url local ->
  get net url = GetResponse 200 new_data -> new_data <> [] ->
  length new_data <> length local ->
  run = (Downloaded filepath,
         [EvMakedirs folder; EvHead url; EvGet url]
         ++ write_events filepath new_data)
  /\ fs_after fs (snd run) = <[filepath := new_data]> fs.
Proof.
  intros Hfs Hne Hhead Hget Hnd Hlen.
  assert (Hrun : run = (Downloaded filepath,
                        [EvMakedirs folder; EvHead url; EvGet url]
                        ++ write_events filepath new_data)).
  { cases.
    - exfalso. rewrite Hfs in cL. injection cL as <-. contradiction.
    - exfalso. exact (transfer_failed_not_delivered net url new_data Hget Hnd cFail).
    - exfalso. rewrite Hget in cG. injection cG as <-.
      rewrite Hfs in cLk. injection cLk as <-. contradiction.
    - rewrite Hget in cG. injection cG as <-. subst o.
      destruct cH as [(-> & _) | (-> & [H | H])].
      + exact cE.
      + congruence.
      + rewrite Hfs in H. injection H as ->. congruence. }
  split; [exact Hrun|]. rewrite Hrun.
  now apply (fs_after_write_events fs [EvMakedirs folder; EvHead url; EvGet url]).
Qed.


Lemma download_frame_aux (path : string) :
  path <> filepath -> fs_after fs (snd run) !! path = fs !! path.
Proof.
  intros Hpath. cases; rewrite cE; cbn [snd].
  - reflexivity.
  - rewrite fs_after_no_write; [reflexivity|].
    destruct cH as [(-> & _) | (-> & _)]; reflexivity.
  - rewrite fs_after_no_write; [reflexivity|].
    destruct cH as [(-> & _) | (-> & _)]; reflexivity.
  - rewrite trace_assoc, fs_after_write_events.
    + apply lookup_insert_ne. congruence.
    + destruct cH as [(-> & _) | (-> & _)]; reflexivity.
Qed.

(** A call reads and writes one file only: every other path is after
    the call as it was before. *)
Theorem download_frame (path : string) :
  path <> filepath -> fs_after fs (snd run) !! path = fs !! path.
Proof. exact (download_frame_aux path). Qed.

(** Running the call again after a download finds the artifact in place:
    with the same server it skips, by the HEAD or after the GET, and
    changes nothing. *)
Theorem download_twice :
  fst run = Downloaded filepath ->
  let fs1 := fs_after fs (snd run) in
  let run2 := download_one_hour int_of_str net fs1 instrument year month day
                                hour output_folder in
  skipped filepath (fst run2)
  /\ fs_after fs1 (snd run2) = fs1.
Proof.
  intros Hrun.
  assert (H1 : exists d, get net url = GetResponse 200 d /\ d <> []
                         /\ fs_after fs (snd run) = <[filepath := d]> fs).
  { cases; rewrite cE in Hrun; simpl in Hrun; try discriminate Hrun.
    - exfalso. destruct cF as [[st H] | [e H]]; congruence.
    - exfalso. congruence.
    - exists cd. split; [exact cG|]. split; [exact cD|].
      rewrite cE. cbn [snd]. rewrite trace_assoc.
      apply fs_after_write_events.
      destruct cH as [(-> & _) | (-> & _)]; reflexivity. }
  destruct H1 as (d & G & Hd & Hfs1).
  intros fs1 run2. subst fs1 run2. rewrite Hfs1.
  destruct (download_cases int_of_str net (<[filepath := d]> fs) instrument
              year month day hour output_folder)
    as [(local0 & L0 & Hne0 & Hc0 & E)
       | (heads & o & Hheads
          & [(Hf & Hfail & E)
            | [(d' & l & G' & Hd' & Hl & Hlen & Ho & E)
              | (d' & G' & Hd' & Hl & Ho & E)]])];
    fold_names url folder filepath.
  - rewrite E. simpl. split; [now left | reflexivity].
  - exfalso. exact (transfer_failed_not_delivered net url d G Hd Hfail).
  - rewrite E. subst o. simpl. split; [now right|].
    apply fs_after_no_write.
    destruct Hheads as [(-> & _) | (-> & _)]; reflexivity.
  - exfalso. rewrite G in G'. injection G' as <-.
    apply (Hl d); [apply lookup_insert_eq | reflexivity].
Qed.

End Runs.

Section PoolFacts.

Variable int_of_str : string -> option Z.
Variable net : network.

(** A call looks at the disk through its own artifact only. *)
Lemma download_local fs fs' instrument year month day hour output_folder :
  fs !! filepath_of output_folder instrument year month day hour
  = fs' !! filepath_of output_folder instrument year month day hour ->
  download_one_hour int_of_str net fs instrument year month day hour
                    output_folder
  = download_one_hour int_of_str net fs' instrument year month day hour
                      output_folder.
Proof.
  intros H. unfold download_one_hour, probe, transfer. now rewrite H.
Qed.

Lemma run_task_local fs fs' t :
  fs !! task_path t = fs' !! task_path t ->
  run_task int_of_str net fs t = run_task int_of_str net fs' t.
Proof. intros H. unfold run_task. now apply download_local. Qed.

Lemma run_task_frame fs t path :
  path <> task_path t ->
  fs_after fs (snd (run_task int_of_str net fs t)) !! path = fs !! path.
Proof. intros H. unfold run_task. now apply download_frame_aux. Qed.

Lemma apply_event_pointwise fsA fsB ev path :
  fsA !! path = fsB !! path ->
  apply_event fsA ev !! path = apply_event fsB ev !! path.
Proof.
  intros H. destruct ev as [f | u | u | p | p data | p]; simpl; try exact H.
  - destruct (decide (p = path)) as [-> | Hne].
    + now rewrite !lookup_insert_eq.
    + now rewrite !lookup_insert_ne.
  - destruct (decide (p = path)) as [-> | Hne].
    + now rewrite !lookup_insert_eq, H.
    + now rewrite !lookup_insert_ne.
Qed.

Lemma fs_after_pointwise trace : forall fsA fsB path,
  fsA !! path = fsB !! path ->
  fs_after fsA trace !! path = fs_after fsB trace !! path.
Proof.
  unfold fs_after. induction trace as [|ev trace IH]; intros fsA fsB path H.
  - exact H.
  - simpl. apply IH. now apply apply_event_pointwise.
Qed.

(** What a run in some order prints and leaves, from what each call does
    alone on the initial disk. *)
Lemma run_in_order_spec order : forall fs,
  NoDup (map task_path order) ->
  fst (run_in_order int_of_str net fs order)
  = map (fun t => message (fst (run_task int_of_str net fs t))) order
  /\ forall path,
       snd (run_in_order int_of_str net fs order) !! path
       = match find (fun t => bool_decide (task_path t = path)) order with
         | Some t => fs_after fs (snd (run_task int_of_str net fs t)) !! path
         | None => fs !! path
         end.
Proof.
  induction order as [|t rest IH]; intros fs Hnd; [split; reflexivity|].
  simpl in Hnd. apply NoDup_cons in Hnd as [Hnotin Hnd].
  cbn [run_in_order].
  destruct (run_task int_of_str net fs t) as [o trace] eqn:R.
  destruct (run_in_order int_of_str net (fs_after fs trace) rest)
    as [printed fs'] eqn:RR.
  destruct (IH (fs_after fs trace) Hnd) as [IH1 IH2].
  rewrite RR in IH1, IH2. simpl in IH1, IH2.
  assert (Hloc : forall t', In t' rest ->
            run_task int_of_str net (fs_after fs trace) t'
            = run_task int_of_str net fs t').
  { intros t' Hin. apply run_task_local.
    replace trace with (snd (run_task int_of_str net fs t)) by now rewrite R.
    apply run_task_frame. intros E. apply Hnotin.
    rewrite <- E. apply list_elem_of_In, in_map, Hin. }
  split.
  - simpl. rewrite R, IH1. simpl. f_equal. apply map_ext_in.
    intros t' Hin. now rewrite (Hloc t' Hin).
  - intros path. simpl. rewrite IH2.
    destruct (bool_decide_reflect (task_path t = path)) as [E | Hne].
    + destruct (find _ rest) as [t'|] eqn:F; [|now rewrite R].
      exfalso. apply find_some in F as [Hin Hp].
      apply bool_decide_eq_true in Hp. apply Hnotin.
      rewrite E, <- Hp. apply list_elem_of_In, in_map, Hin.
    + destruct (find _ rest) as [t'|] eqn:F.
      * pose proof (find_some _ _ F) as [Hin Hp].
        apply bool_decide_eq_true in Hp.
        rewrite (Hloc t' Hin).
        destruct (run_task int_of_str net fs t') as [o' trace'] eqn:R'.
        simpl.
        assert (Hpt : fs_after fs trace !! task_path t' = fs !! task_path t').
        { replace trace with (snd (run_task int_of_str net fs t))
            by now rewrite R.
          apply run_task_frame. congruence. }
        subst path. now apply fs_after_pointwise.
      * replace trace with (snd (run_task int_of_str net fs t))
          by now rewrite R.
        apply run_task_frame. congruence.
Qed.

End PoolFacts.

Lemma NoDup_map_In_inj {A B : Type} (f : A -> B) (l : list A) a b :
  NoDup (map f l) -> In a l -> In b l -> f a = f b -> a = b.
Proof.
  induction l as [|x l IH]; simpl; intros Hnd Ha Hb E; [contradiction|].
  apply NoDup_cons in Hnd as [Hx Hnd].
  destruct Ha as [-> | Ha], Hb as [-> | Hb]; auto.
  - exfalso. apply Hx. rewrite E. apply list_elem_of_In, in_map, Hb.
  - exfalso. apply Hx. rewrite <- E. apply list_elem_of_In, in_map, Ha.
Qed.

Section PoolOrder.

Variable int_of_str : string -> option Z.
Variable net : network.

Lemma run_order_irrelevant_aux (fs : gmap string (list byte))
    (order order' : list task) :
  Permutation order order' ->
  NoDup (map task_path order) ->
  fst (run_in_order int_of_str net fs order)
  = map (fun t => message (fst (run_task int_of_str net fs t))) order
  /\ Permutation (fst (run_in_order int_of_str net fs order))
                 (fst (run_in_order int_of_str net fs order'))
  /\ snd (run_in_order int_of_str net fs order)
     = snd (run_in_order int_of_str net fs order').
Proof.
  intros Hperm Hnd.
  assert (Hnd' : NoDup (map task_path order'))
    by (rewrite <- Hperm; exact Hnd).
  destruct (run_in_order_spec int_of_str net order fs Hnd) as [H1 H2].
  destruct (run_in_order_spec int_of_str net order' fs Hnd') as [H1' H2'].
  split; [exact H1|]. split.
  - rewrite H1, H1'. now apply Permutation_map.
  - apply map_eq. intros path. rewrite H2, H2'.
    destruct (find _ order) as [t|] eqn:F;
      destruct (find _ order') as [t'|] eqn:F'.
    + apply find_some in F as [Hin Hp]. apply find_some in F' as [Hin' Hp'].
      apply bool_decide_eq_true in Hp. apply bool_decide_eq_true in Hp'.
      assert (t = t') as <-; [|reflexivity].
      apply (NoDup_map_In_inj task_path order); auto; [|congruence].
      apply list_elem_of_In. rewrite Hperm. now apply list_elem_of_In.
    + exfalso. apply find_some in F as [Hin Hp].
      assert (Hin' : In t order')
        by (apply list_elem_of_In; rewrite <- Hperm; now apply list_elem_of_In).
      pose proof (find_none _ _ F' t Hin') as Hn. congruence.
    + exfalso. apply find_some in F' as [Hin' Hp'].
      assert (Hin : In t' order)
        by (apply list_elem_of_In; rewrite Hperm; now apply list_elem_of_In).
      pose proof (find_none _ _ F t' Hin) as Hn. congruence.
    + reflexivity.
Qed.


End PoolOrder.

Lemma fmt_2_check : all_from (fmt_ok 2) 0 (Z.to_nat 100) = true.
Proof. vm_compute. reflexivity. Qed.

Lemma fmt_4_check : all_from (fmt_ok 4) 0 (Z.to_nat 10000) = true.
Proof. vm_compute. reflexivity. Qed.

Lemma fmt_2_ok n :
  0 <= n < 100 ->
  String.length (fmt_0d 2 n) = 2%nat /\ digits_value (fmt_0d 2 n) = n.
Proof.
  intros Hn. pose proof (all_from_spec _ _ _ fmt_2_check n) as H.
  rewrite Z2Nat.id in H by lia. specialize (H ltac:(lia)).
  unfold fmt_ok in H. apply andb_true_iff in H as [H1 H2].
  apply Nat.eqb_eq in H1. apply Z.eqb_eq in H2. auto.
Qed.

Lemma fmt_4_ok n :
  0 <= n < 10000 ->
  String.length (fmt_0d 4 n) = 4%nat /\ digits_value (fmt_0d 4 n) = n.
Proof.
  intros Hn. pose proof (all_from_spec _ _ _ fmt_4_check n) as H.
  rewrite Z2Nat.id in H by lia. specialize (H ltac:(lia)).
  unfold fmt_ok in H. apply andb_true_iff in H as [H1 H2].
  apply Nat.eqb_eq in H1. apply Z.eqb_eq in H2. auto.
Qed.

Lemma append_cons c (a b : string) : String c a +:+ b = String c (a +:+ b).
Proof. reflexivity. Qed.

Lemma append_nil (b : string) : "" +:+ b = b.
Proof. reflexivity. Qed.

Lemma append_split (a a' b b' : string) :
  String.length a = String.length a' ->
  a +:+ b = a' +:+ b' -> a = a' /\ b = b'.
Proof.
  revert a'. induction a as [|c a IH]; intros [|c' a'] Hlen E;
    try discriminate Hlen.
  - rewrite !append_nil in E. auto.
  - rewrite !append_cons in E. injection E as -> E.
    injection Hlen as Hlen.
    destruct (IH a' Hlen E) as [-> ->]. auto.
Qed.

Lemma append_assoc (a b c : string) : (a +:+ b) +:+ c = a +:+ (b +:+ c).
Proof.
  induction a as [|x a IH]; [reflexivity|].
  rewrite !append_cons. now rewrite IH.
Qed.

Lemma starts_with_slash_filename instrument y m d h y' m' d' h' :
  starts_with_slash (filename_of instrument y m d h)
  = starts_with_slash (filename_of instrument y' m' d' h').
Proof. unfold filename_of. destruct instrument; reflexivity. Qed.

Lemma path_join_inj a b b' :
  starts_with_slash b = starts_with_slash b' ->
  path_join a b = path_join a b' -> b = b'.
Proof.
  unfold path_join. intros ->.
  destruct (starts_with_slash b'); [auto|].
  destruct (String.eqb a "" || ends_with_slash a)%bool.
  - apply String.app_inj.
  - intros E. apply String.app_inj in E.
    rewrite !append_cons, !append_nil in E. now injection E.
Qed.

Lemma filename_inj instrument y m d h y' m' d' h' :
  0 <= y < 10000 -> 0 <= m < 100 -> 0 <= d < 100 -> 0 <= h < 100 ->
  0 <= y' < 10000 -> 0 <= m' < 100 -> 0 <= d' < 100 -> 0 <= h' < 100 ->
  filename_of instrument y m d h = filename_of instrument y' m' d' h' ->
  y = y' /\ m = m' /\ d = d' /\ h = h'.
Proof.
  intros Hy Hm Hd Hh Hy' Hm' Hd' Hh'. unfold filename_of. cbv zeta. intros E.
  apply String.app_inj in E. rewrite !append_cons, !append_nil in E.
  injection E as E. rewrite !append_assoc in E.
  destruct (fmt_4_ok y Hy) as [Ly Vy]. destruct (fmt_4_ok y' Hy') as [Ly' Vy'].
  destruct (fmt_2_ok m Hm) as [Lm Vm]. destruct (fmt_2_ok m' Hm') as [Lm' Vm'].
  destruct (fmt_2_ok d Hd) as [Ld Vd]. destruct (fmt_2_ok d' Hd') as [Ld' Vd'].
  destruct (fmt_2_ok h Hh) as [Lh Vh]. destruct (fmt_2_ok h' Hh') as [Lh' Vh'].
  apply append_split in E as [Ey E]; [|congruence].
  apply append_split in E as [Em E]; [|congruence].
  apply append_split in E as [Ed E]; [|congruence].
  injection E as E.
  apply append_split in E as [Eh _]; [|congruence].
  repeat split; congruence.
Qed.

(** Two units of one instrument and one output folder that differ in
    the date or the hour have different local artifacts. *)
Theorem filepath_inj output_folder instrument y m d h y' m' d' h' :
  0 <= y < 10000 -> 0 <= m < 100 -> 0 <= d < 100 -> 0 <= h < 100 ->
  0 <= y' < 10000 -> 0 <= m' < 100 -> 0 <= d' < 100 -> 0 <= h' < 100 ->
  filepath_of output_folder instrument y m d h
  = filepath_of output_folder instrument y' m' d' h' ->
  y = y' /\ m = m' /\ d = d' /\ h = h'.
Proof.
  intros Hy Hm Hd Hh Hy' Hm' Hd' Hh' E. unfold filepath_of in E.
  apply path_join_inj in E; [|apply starts_with_slash_filename].
  now apply (filename_inj instrument).
Qed.

Lemma filepath_inj_witness :
  filepath_of "data" "EURUSD" 2024 11 3 5
  = "data/EURUSD/EURUSD_20241103_05h_ticks.bi5"
  /\ (2024 = 2024 /\ 11 = 11 /\ 3 = 3 /\ 5 = 5).
Proof.
  split; [reflexivity|].
  apply (filepath_inj "data" "EURUSD" 2024 11 3 5 2024 11 3 5); try lia.
  reflexivity.
Defined.

Lemma tasks_loop_overflow instrument output_folder n :
  forall fuel c acc,
    (n < fuel)%nat -> 1 <= c -> c + Z.of_nat n = _MAXORDINAL ->
    tasks_loop fuel instrument output_folder (fromordinal c) date_max acc
    = Some (Raised OverflowError).
Proof.
  induction n as [|n IH]; intros fuel c acc Hf Hc He;
    (destruct fuel as [|fuel]; [lia|]);
    destruct (ordinal_roundtrip c ltac:(lia)) as [Ec Vc];
    simpl;
    rewrite (date_leb_toordinal _ date_max Vc eq_refl), Ec;
    change (toordinal date_max) with _MAXORDINAL;
    (destruct (Z.leb_spec c _MAXORDINAL); [|lia]);
    unfold date_add_days; rewrite Ec.
  - destruct (Z.ltb_spec 0 (c + 1)); [|lia].
    destruct (Z.leb_spec (c + 1) _MAXORDINAL); [lia|]. reflexivity.
  - destruct (Z.ltb_spec 0 (c + 1)); [|lia].
    destruct (Z.leb_spec (c + 1) _MAXORDINAL); [|lia]. simpl.
    apply IH; lia.
Qed.

Lemma build_tasks_at_date_max instrument output_folder start_date :
  valid_date start_date = true ->
  build_tasks instrument start_date date_max output_folder
  = Some (Raised OverflowError).
Proof.
  intros Hs. unfold build_tasks.
  pose proof (toordinal_range _ Hs) as Rs.
  change (toordinal date_max) with _MAXORDINAL in *.
  rewrite <- (fromordinal_toordinal start_date Hs) at 2.
  apply (tasks_loop_overflow instrument output_folder
           (Z.to_nat (_MAXORDINAL - toordinal start_date))); lia.
Qed.

(** The two ways [download_dukascopy_ticks] ends without a task list to
    run.  A start date after the end date gives the empty list: nothing
    is downloaded and nothing is reported.  An end date of 9999-12-31
    makes the step to the next day raise [OverflowError] after the last
    day has been enumerated, whatever the start date. *)
Theorem build_tasks_edges instrument output_folder start_date end_date :
  valid_date start_date = true -> valid_date end_date = true ->
  (date_leb start_date end_date = false ->
   build_tasks instrument start_date end_date output_folder
   = Some (Returned []))
  /\ (end_date = date_max ->
      build_tasks instrument start_date end_date output_folder
      = Some (Raised OverflowError)).
Proof.
  intros Hs He. split.
  - intros Hle. unfold build_tasks. simpl. now rewrite Hle.
  - intros ->. now apply build_tasks_at_date_max.
Qed.

Lemma build_tasks_edges_witness :
  build_tasks "EURUSD" (mkdate 2024 3 1) (mkdate 2024 2 29) "data"
  = Some (Returned [])
  /\ build_tasks "EURUSD" (mkdate 9999 12 30) date_max "data"
     = Some (Raised OverflowError).
Proof.
  split.
  - apply (proj1 (build_tasks_edges "EURUSD" "data" (mkdate 2024 3 1)
                    (mkdate 2024 2 29) eq_refl eq_refl)). reflexivity.
  - apply (proj2 (build_tasks_edges "EURUSD" "data" (mkdate 9999 12 30)
                    date_max eq_refl eq_refl)). reflexivity.
Defined.

Lemma scheduled_task_fields instrument output_folder start_date end_date t :
  valid_date start_date = true -> valid_date end_date = true ->
  In t (flat_map (tasks_of_day instrument output_folder)
                 (days_between start_date end_date)) ->
  t_instrument t = instrument /\ t_output_folder t = output_folder
  /\ 0 <= t_year t < 10000 /\ 0 <= t_month t < 100 /\ 0 <= t_day t < 100
  /\ 0 <= t_hour t < 100.
Proof.
  intros Hs He Hin. apply in_flat_map in Hin as (d & Hd & Hin).
  pose proof (days_between_valid _ _ _ Hs He Hd) as Hv.
  destruct (valid_date_bounds d Hv) as (Hy & Hm & Hday).
  unfold tasks_of_day in Hin. apply in_map_iff in Hin as (h & <- & Hh).
  apply hours_In in Hh. simpl.
  assert (_days_in_month (year d) (month d) <= 31).
  { unfold _days_in_month.
    destruct ((month d =? 2) && _is_leap (year d))%bool; [lia|].
    destruct (month_cases (month d) Hm)
      as [->| [->| [->| [->| [->| [->| [->| [->| [->| [->| [->| ->]]]]]]]]]]];
      simpl; lia. }
  repeat split; lia.
Qed.

Lemma scheduled_paths_NoDup instrument output_folder start_date end_date :
  valid_date start_date = true -> valid_date end_date = true ->
  toordinal end_date < _MAXORDINAL ->
  NoDup (map task_path
             (flat_map (tasks_of_day instrument output_folder)
                       (days_between start_date end_date))).
Proof.
  intros Hs He Hmax.
  pose proof (toordinal_range _ Hs) as Rs.
  set (tasks := flat_map _ _).
  assert (Hnd : NoDup tasks).
  { apply (NoDup_map_inv task_key). unfold tasks, days_between.
    destruct (Z.le_gt_cases (toordinal start_date) (toordinal end_date)).
    - rewrite task_keys_range by lia. apply ord_range_NoDup.
    - replace (Z.to_nat _) with 0%nat by lia. constructor. }
  apply (NoDup_fmap_2_strong task_path); [|exact Hnd].
  intros t t' Ht Ht' E.
  apply list_elem_of_In in Ht, Ht'.
  destruct (scheduled_task_fields _ _ _ _ t Hs He Ht)
    as (Hi & Ho & Hy & Hm & Hd & Hh).
  destruct (scheduled_task_fields _ _ _ _ t' Hs He Ht')
    as (Hi' & Ho' & Hy' & Hm' & Hd' & Hh').
  unfold task_path in E. rewrite Hi, Ho, Hi', Ho' in E.
  apply filepath_inj in E; try assumption.
  destruct t, t'; simpl in *. destruct E as (-> & -> & -> & ->).
  congruence.
Qed.

Lemma scheduled_paths_distinct_aux instrument output_folder start_date end_date
    tasks :
  valid_date start_date = true -> valid_date end_date = true ->
  build_tasks instrument start_date end_date output_folder
  = Some (Returned tasks) ->
  NoDup (map task_path tasks).
Proof.
  intros Hs He Hb.
  destruct (date_leb start_date end_date) eqn:Hle.
  - destruct (Z.eq_dec (toordinal end_date) _MAXORDINAL) as [Emax | Hne].
    + exfalso.
      assert (end_date = date_max) as ->
        by (apply toordinal_inj; [assumption | reflexivity | exact Emax]).
      rewrite (build_tasks_at_date_max instrument output_folder start_date Hs)
        in Hb.
      discriminate Hb.
    + assert (Hmax : toordinal end_date < _MAXORDINAL)
        by (pose proof (toordinal_range _ He); lia).
      rewrite (build_tasks_ok _ _ _ _ Hs He Hle Hmax) in Hb.
      injection Hb as <-. now apply scheduled_paths_NoDup.
  - unfold build_tasks in Hb. simpl in Hb. rewrite Hle in Hb.
    injection Hb as <-. constructor.
Qed.

(** The tasks of one run have pairwise distinct local artifacts. *)
Theorem scheduled_paths_distinct instrument output_folder start_date end_date
    tasks :
  valid_date start_date = true -> valid_date end_date = true ->
  build_tasks instrument start_date end_date output_folder
  = Some (Returned tasks) ->
  NoDup (map task_path tasks).
Proof.
  exact (scheduled_paths_distinct_aux instrument output_folder start_date
           end_date tasks).
Qed.

Lemma scheduled_paths_distinct_witness :
  exists tasks,
    build_tasks "EURUSD" (mkdate 2024 2 28) (mkdate 2024 2 29) "data"
    = Some (Returned tasks)
    /\ NoDup (map task_path tasks).
Proof.
  eexists. split.
  - vm_compute. reflexivity.
  - apply (scheduled_paths_distinct "EURUSD" "data" (mkdate 2024 2 28)
             (mkdate 2024 2 29)); [reflexivity | reflexivity |].
    vm_compute. reflexivity.
Defined.

(** For the tasks a run builds, the order in which the calls are made
    does not matter: each call returns what it returns alone on the
    initial disk, and every order leaves the same disk. *)
Theorem scheduled_runs_order_irrelevant
    (int_of_str : string -> option Z) (net : network)
    (fs : gmap string (list byte)) instrument output_folder
    start_date end_date tasks order :
  valid_date start_date = true -> valid_date end_date = true ->
  build_tasks instrument start_date end_date output_folder
  = Some (Returned tasks) ->
  Permutation tasks order ->
  fst (run_in_order int_of_str net fs order)
  = map (fun t => message (fst (run_task int_of_str net fs t))) order
  /\ Permutation (fst (run_in_order int_of_str net fs tasks))
                 (fst (run_in_order int_of_str net fs order))
  /\ snd (run_in_order int_of_str net fs order)
     = snd (run_in_order int_of_str net fs tasks).
Proof.
  intros Hs He Hb Hperm.
  pose proof (scheduled_paths_distinct_aux _ _ _ _ _ Hs He Hb) as Hnd.
  destruct (run_order_irrelevant_aux int_of_str net fs tasks order Hperm Hnd)
    as (_ & H2 & H3).
  assert (Hnd' : NoDup (map task_path order)) by (rewrite <- Hperm; exact Hnd).
  destruct (run_order_irrelevant_aux int_of_str net fs order order
              (Permutation_refl _) Hnd') as (H1 & _ & _).
  split; [exact H1|]. split; [exact H2 | now symmetry].
Qed.

Lemma scheduled_runs_order_irrelevant_witness :
  exists tasks,
    build_tasks "EURUSD" (mkdate 2024 2 28) (mkdate 2024 2 28) "data"
    = Some (Returned tasks)
    /\ snd (run_in_order int_of_digits server_3_bytes ∅ (rev tasks))
       = snd (run_in_order int_of_digits server_3_bytes ∅ tasks).
Proof.
  eexists. split.
  - vm_compute. reflexivity.
  - apply (scheduled_runs_order_irrelevant int_of_digits server_3_bytes ∅
             "EURUSD" "data" (mkdate 2024 2 28) (mkdate 2024 2 28));
      [reflexivity | reflexivity | vm_compute; reflexivity |].
    apply Permutation_rev.
Defined.


Lemma download_same_size_kept_witness :
  skipped eurusd_path
          (fst (download_one_hour int_of_digits server_get_only same_size_disk
                                  "EURUSD" 2024 11 3 5 "data"))
  /\ fs_after same_size_disk
              (snd (download_one_hour int_of_digits server_get_only
                                      same_size_disk "EURUSD" 2024 11 3 5
                                      "data"))
     = same_size_disk.
Proof.
  destruct (download_same_size_kept int_of_digits server_get_only
              same_size_disk "EURUSD" 2024 11 3 5 "data"
              [x01; x02; x03] [x0a; x0b; x0c]) as (H1 & _ & H3).
  - reflexivity.
  - discriminate.
  - reflexivity.
  - reflexivity.
  - split; [exact H1 | exact H3].
Defined.

Lemma download_replaces_witness :
  fs_after stale_disk
           (snd (download_one_hour int_of_digits server_get_only stale_disk
                                   "EURUSD" 2024 11 3 5 "data"))
  = <[eurusd_path := [x0a; x0b; x0c]]> stale_disk.
Proof.
  destruct (download_replaces int_of_digits server_get_only stale_disk
              "EURUSD" 2024 11 3 5 "data" [x01; x02] [x0a; x0b; x0c])
    as [_ H].
  - reflexivity.
  - discriminate.
  - intros (s & Hs & _). discriminate Hs.
  - reflexivity.
  - discriminate.
  - simpl. lia.
  - exact H.
Defined.

Lemma download_frame_witness :
  fs_after stale_disk
           (snd (download_one_hour int_of_digits server_3_bytes stale_disk
                                   "EURUSD" 2024 11 3 5 "data"))
  !! "data/EURUSD/EURUSD_20241103_06h_ticks.bi5"
  = stale_disk !! "data/EURUSD/EURUSD_20241103_06h_ticks.bi5".
Proof.
  apply (download_frame int_of_digits server_3_bytes stale_disk "EURUSD"
           2024 11 3 5 "data" "data/EURUSD/EURUSD_20241103_06h_ticks.bi5").
  vm_compute. discriminate.
Defined.

Lemma download_twice_witness :
  skipped eurusd_path
    (fst (download_one_hour int_of_digits server_3_bytes
            (fs_after ∅ (snd (download_one_hour int_of_digits server_3_bytes ∅
                                "EURUSD" 2024 11 3 5 "data")))
            "EURUSD" 2024 11 3 5 "data")).
Proof.
  destruct (download_twice int_of_digits server_3_bytes ∅ "EURUSD" 2024 11 3 5
              "data") as [H _].
  - vm_compute. reflexivity.
  - exact H.
Defined.


End DownloaderMore.
